(** * notion-anki-mcp: a shallow embedding of notion.py, anki.py and server.py

    The three Python modules are embedded as Rocq functions over a small
    model of the Python values they handle (JSON documents decoded into
    [None], booleans, integers, strings, lists and dicts).  Exceptions are
    explicit results, and the effects the code has on the outside world
    (log records, messages sent to the MCP client, requests posted to
    AnkiConnect) are threaded through a state-and-exception monad. *)

From Stdlib Require Import ZArith NArith Ascii List DecimalString.
From stdpp Require Import gmap strings list fin_maps.

#[local] Set Warnings "-register-all".
#[local] Open Scope string_scope.
#[local] Open Scope list_scope.

(** ** Python strings *)

(** A Python [str] is a sequence of Unicode code points. *)
Definition pstr := list N.

(** ASCII literals of the source, as code points. *)
Definition lit (s : string) : pstr :=
  map N_of_ascii (String.list_ascii_of_string s).
Coercion lit : string >-> pstr.

(** The line break ["\n"]. *)
Definition nl : pstr := [10%N].

(** [str.isspace] on one code point: the code points CPython classifies as
    whitespace (bidirectional type WS, B or S, or category Zs). *)
Definition is_space (c : N) : bool :=
  ((9 <=? c) && (c <=? 13) || (28 <=? c) && (c <=? 32)
   || (c =? 133) || (c =? 160) || (c =? 5760)
   || (8192 <=? c) && (c <=? 8202)
   || (c =? 8232) || (c =? 8233) || (c =? 8239) || (c =? 8287)
   || (c =? 12288))%N.

Fixpoint lstrip (s : pstr) : pstr :=
  match s with
  | c :: s' => if is_space c then lstrip s' else s
  | [] => []
  end.

Definition rstrip (s : pstr) : pstr := rev (lstrip (rev s)).

(** [s.strip()] *)
Definition strip (s : pstr) : pstr := rstrip (lstrip s).

Fixpoint prefix_of (p s : pstr) : bool :=
  match p, s with
  | [], _ => true
  | _ :: _, [] => false
  | a :: p', b :: s' => (a =? b)%N && prefix_of p' s'
  end.

(** [p in s] for two strings: [p] occurs in [s] as a contiguous run. *)
Fixpoint substring_of (p s : pstr) : bool :=
  prefix_of p s ||
  match s with
  | [] => false
  | _ :: s' => substring_of p s'
  end.

(** [str(n)] for an [int], as an f-string renders it. *)
Definition str_int (z : Z) : pstr :=
  lit (NilZero.string_of_int (Z.to_int z)).

(** ** Python values *)

(** What [json] decoding produces.  A number is an integer here: every
    operation the code applies to a number (truth test, subscript, [in],
    attribute access) treats a float the same way. *)
Inductive pyval :=
| PNone
| PBool (b : bool)
| PInt (z : Z)
| PStr (s : pstr)
| PList (l : list pyval)
| PDict (d : gmap pstr pyval).

(** A dict display [{k1: v1, ...}], written [dict_of [k1 ~> v1; ...]]. *)
Definition dict_of (l : list (pstr * pyval)) : pyval :=
  PDict (list_to_map l).

Definition entry (k : pstr) (v : pyval) : pstr * pyval := (k, v).
Notation "k ~> v" := (entry k v) (at level 60, no associativity).

(** The exception classes the three modules raise, name in an [except]
    clause or can receive from the interpreter. [ServiceError] stands for
    any other [Exception] subclass raised by an external client library. *)
Inductive exn :=
| KeyError
| IndexError
| TypeError
| AttributeError
| ValueError (msg : pstr)
| URLError
| JSONDecodeError
| Exception (msg : pstr)
| ServiceError (code : N).

Inductive outcome (A : Type) :=
| Raise (e : exn)
| Return (a : A).
Arguments Raise {A} e.
Arguments Return {A} a.

(** [bool(v)] *)
Definition truthy (v : pyval) : bool :=
  match v with
  | PNone => false
  | PBool b => b
  | PInt z => negb (z =? 0)%Z
  | PStr s => negb (bool_decide (s = []))
  | PList l => negb (bool_decide (length l = 0))
  | PDict d => negb (bool_decide (size d = 0))
  end.

(** [v == s] where [s] is a string. *)
Definition eq_str (v : pyval) (s : pstr) : bool :=
  match v with
  | PStr t => bool_decide (t = s)
  | _ => false
  end.

(** [v[k]] with a string key. *)
Definition getitem (v : pyval) (k : pstr) : outcome pyval :=
  match v with
  | PDict d => match d !! k with
               | Some x => Return x
               | None => Raise KeyError
               end
  | _ => Raise TypeError
  end.

(** [v[i]] with a non-negative integer literal.  The keys of a decoded
    JSON object are strings, so an integer is never a key of a dict. *)
Definition getindex (v : pyval) (i : nat) : outcome pyval :=
  match v with
  | PList l => match l !! i with
               | Some x => Return x
               | None => Raise IndexError
               end
  | PStr s => match s !! i with
              | Some c => Return (PStr [c])
              | None => Raise IndexError
              end
  | PDict _ => Raise KeyError
  | _ => Raise TypeError
  end.

(** [v.get(k, default)] with a string key. *)
Definition get (v : pyval) (k : pstr) (dflt : pyval) : outcome pyval :=
  match v with
  | PDict d => Return (default dflt (d !! k))
  | _ => Raise AttributeError
  end.

(** [v.get(key, default)] where the key is itself a value read from the
    document: a list or a dict is unhashable, and a hashable key that is
    not a string is never bound in a decoded JSON object. *)
Definition get_key (v key dflt : pyval) : outcome pyval :=
  match v with
  | PDict d =>
      match key with
      | PStr k => Return (default dflt (d !! k))
      | PList _ | PDict _ => Raise TypeError
      | _ => Return dflt
      end
  | _ => Raise AttributeError
  end.

(** [s in v] where [s] is a string: substring test on a string,
    membership on a list, key test on a dict. *)
Definition contains (s : pstr) (v : pyval) : outcome bool :=
  match v with
  | PStr t => Return (substring_of s t)
  | PList l => Return (existsb (fun x => eq_str x s) l)
  | PDict d => Return (bool_decide (is_Some (d !! s)))
  | _ => Raise TypeError
  end.

(** The sequence a [for] loop runs over.  A dict yields its keys; this
    model yields them in the order of [map_to_list], not in insertion
    order. *)
Definition iterate (v : pyval) : outcome (list pyval) :=
  match v with
  | PList l => Return l
  | PStr s => Return (map (fun c => PStr [c]) s)
  | PDict d => Return (map (fun kv => PStr (fst kv)) (map_to_list d))
  | _ => Raise TypeError
  end.

(** [s + v] (also [s += v]) where [s] is a string. *)
Definition add_str (s : pstr) (v : pyval) : outcome pstr :=
  match v with
  | PStr t => Return (s ++ t)
  | _ => Raise TypeError
  end.

(** ** Effects *)

Inductive level := DEBUG | INFO | WARNING | ERROR.

(** What a run leaves behind: the records handed to [logging], the
    messages sent to the MCP client through [ctx.session], and the request
    payloads posted to AnkiConnect, each oldest first. *)
Record world := World {
  w_log : list (level * pstr);
  w_sent : list (level * pstr);
  w_calls : list pyval
}.

Definition world0 : world := World [] [] [].

(** A computation runs from a world to a world and either returns or
    raises; the effects made before an exception stay. *)
Definition M (A : Type) : Type := world -> world * outcome A.

Definition ret {A} (a : A) : M A := fun w => (w, Return a).

Definition raise {A} (e : exn) : M A := fun w => (w, Raise e).

Definition bind {A B} (m : M A) (k : A -> M B) : M B :=
  fun w =>
    match m w with
    | (w', Return a) => k a w'
    | (w', Raise e) => (w', Raise e)
    end.

(** [try: m  except ...: handler e]; the handler re-raises what its
    clauses do not name. *)
Definition try_except {A} (m : M A) (handler : exn -> M A) : M A :=
  fun w =>
    match m w with
    | (w', Return a) => (w', Return a)
    | (w', Raise e) => handler e w'
    end.

Definition lift {A} (o : outcome A) : M A := fun w => (w, o).

Declare Scope py_scope.
Delimit Scope py_scope with py.
Notation "x <- m ;; k" := (bind m (fun x => k))
  (at level 100, m at next level, right associativity) : py_scope.
Notation "m ;; k" := (bind m (fun _ => k))
  (at level 100, right associativity) : py_scope.
Notation "x <~ o ;; k" := (bind (lift o) (fun x => k))
  (at level 100, o at next level, right associativity) : py_scope.
#[local] Open Scope py_scope.

(** The world after further records went to the log. *)
Definition add_log (records : list (level * pstr)) (w : world) : world :=
  World (w_log w ++ records) (w_sent w) (w_calls w).

(** [logger.debug/info/warning/error(msg)] *)
Definition log (lv : level) (msg : pstr) : M unit :=
  fun w => (add_log [(lv, msg)] w, Return tt).

(** [await ctx.session.send_log_message(level=..., data=...)]; delivery
    belongs to the transport layer and is taken to succeed. *)
Definition send_log_message (lv : level) (data : pstr) : M unit :=
  fun w => (World (w_log w) (w_sent w ++ [(lv, data)]) (w_calls w), Return tt).

(** The outside of the program: the Notion client, the completion call of
    generate.py, the HTTP exchange with AnkiConnect, and [str()] on
    exceptions and values. *)
Record services := Services {
  (** [notion.search(query=q, filter={"property": "object", "value": kind})] *)
  notion_search : pstr -> pstr -> outcome pyval;
  (** [notion.blocks.children.list(block_id)] *)
  notion_children : pyval -> outcome pyval;
  (** [generate_flashcards_gpt(page_name, topics, content)] *)
  flashcards_gpt : pyval -> list pstr -> gmap pstr pstr -> outcome (list pyval);
  (** [json.load(urllib.request.urlopen(req))], given the payloads posted
      before and the payload posted now *)
  urlopen : list pyval -> pyval -> outcome pyval;
  str_exn : exn -> pstr;
  str_val : pyval -> pstr
}.

Definition and_then {A B} (o : outcome A) (k : A -> outcome B) : outcome B :=
  match o with
  | Raise e => Raise e
  | Return a => k a
  end.

Notation "'let?' x := o 'in' k" := (and_then o (fun x => k))
  (at level 10, x name, o at level 100, k at level 200) : py_scope.

(** The receiver of a [str] method call such as [v.strip()]. *)
Definition str_receiver (v : pyval) : outcome pstr :=
  match v with
  | PStr s => Return s
  | _ => Raise AttributeError
  end.

(** Truth of a string: non-empty. *)
Definition nonempty (s : pstr) : bool := negb (bool_decide (s = [])).

(** The classes named by [except (KeyError, IndexError, TypeError)]. *)
Definition lookup_error (e : exn) : bool :=
  match e with
  | KeyError | IndexError | TypeError => true
  | _ => false
  end.

(** What an f-string puts for [{v}]: a string as it is, anything else
    through [str()]. *)
Definition fmt (svc : services) (v : pyval) : pstr :=
  match v with
  | PStr s => s
  | _ => str_val svc v
  end.

(** [not name or not name.strip()], the test every entry point that takes
    a name starts with. *)
Definition blank (name : pyval) : outcome bool :=
  if truthy name then
    let? s := str_receiver name in
    Return (negb (nonempty (strip s)))
  else Return true.

(** ** notion.py *)

Module Notion.
Section Notion.
Context (svc : services).

(** The loop get_toggle_answer runs over the inline runs of a child block,
    the same in its three branches:
      [for excerpt in runs: if 'text' in excerpt: acc += excerpt['text']['content']] *)
Fixpoint join_excerpts (acc : pstr) (excerpts : list pyval) : outcome pstr :=
  match excerpts with
  | [] => Return acc
  | excerpt :: rest =>
      let? has_text := contains "text" excerpt in
      if has_text then
        let? text := getitem excerpt "text" in
        let? content := getitem text "content" in
        let? acc' := add_str acc content in
        join_excerpts acc' rest
      else join_excerpts acc rest
  end.

Definition join_runs (acc : pstr) (runs : pyval) : outcome pstr :=
  let? excerpts := iterate runs in
  join_excerpts acc excerpts.

(** The state of the loop of get_toggle_answer. *)
Record walk := Walk {
  answer : pstr;
  number : Z;
  previous_type : pyval
}.

(** [answer = ""], [number = 1], [previous_type = None] *)
Definition walk0 : walk := Walk (lit "") 1 PNone.

(** One iteration of [for block in toggle_content]. *)
Definition toggle_step (st : walk) (block : pyval) : outcome walk :=
  let? ty := getitem block "type" in
  let? st' :=
    if eq_str ty "paragraph" then
      let? data := getitem block "paragraph" in
      let? paragraph := getitem data "rich_text" in
      let? full_text := join_runs (lit "") paragraph in
      Return (Walk (answer st ++ (full_text ++ nl)) (number st) (previous_type st))
    else if eq_str ty "bulleted_list_item" then
      let? data := getitem block "bulleted_list_item" in
      let? bullet_note := getitem data "rich_text" in
      let? full_bullet := join_runs (lit "- ") bullet_note in
      Return (Walk (answer st ++ (full_bullet ++ nl)) (number st) (previous_type st))
    else if eq_str ty "numbered_list_item" then
      let number' :=
        if eq_str (previous_type st) "numbered_list_item"
        then (number st + 1)%Z else 1%Z in
      let? data := getitem block "numbered_list_item" in
      let? number_item := getitem data "rich_text" in
      let? full_item := join_runs (str_int number' ++ lit ". ") number_item in
      Return (Walk (answer st ++ (full_item ++ nl)) number' (previous_type st))
    else Return st in
  let? ty' := getitem block "type" in
  Return (Walk (answer st') (number st') ty').

Fixpoint toggle_loop (st : walk) (blocks : list pyval) : outcome walk :=
  match blocks with
  | [] => Return st
  | block :: rest =>
      let? st' := toggle_step st block in
      toggle_loop st' rest
  end.

(** The body of get_toggle_answer after the children are fetched. *)
Definition toggle_answer (toggle_children : pyval) : outcome pstr :=
  let? toggle_content := getitem toggle_children "results" in
  let? blocks := iterate toggle_content in
  let? st := toggle_loop walk0 blocks in
  Return (answer st).

Definition get_toggle_answer (block_id : pyval) : M pstr :=
  toggle_children <~ notion_children svc block_id ;;
  lift (toggle_answer toggle_children).

(** [rich_text and rich_text[0].get('text')], as a condition. *)
Definition first_text (rich_text : pyval) : outcome bool :=
  if truthy rich_text then
    let? first := getindex rich_text 0 in
    let? text := get first "text" PNone in
    Return (truthy text)
  else Return false.

(** [rich_text[0]['text']['content']] *)
Definition first_content (rich_text : pyval) : outcome pyval :=
  let? first := getindex rich_text 0 in
  let? text := getitem first "text" in
  getitem text "content".

(** The body of the [try] of analyze_blocks for one block. *)
Definition analyze_block (block block_type : pyval)
    (st : gset pstr * gmap pstr pstr) : M (gset pstr * gmap pstr pstr) :=
  is_heading <~ contains "heading" block_type ;;
  if is_heading then
    heading_data <~ get_key block block_type (PDict ∅) ;;
    rich_text <~ get heading_data "rich_text" (PList []) ;;
    has_text <~ first_text rich_text ;;
    if has_text then
      content <~ first_content rich_text ;;
      heading <~ str_receiver content ;;
      if nonempty (strip heading) then
        log DEBUG (lit "Found heading: " ++ heading) ;;
        ret ({[strip heading]} ∪ st.1, st.2)
      else ret st
    else ret st
  else if eq_str block_type "toggle" then
    toggle_data <~ get block "toggle" (PDict ∅) ;;
    rich_text <~ get toggle_data "rich_text" (PList []) ;;
    has_text <~ first_text rich_text ;;
    if has_text then
      content <~ first_content rich_text ;;
      question <~ str_receiver content ;;
      if nonempty (strip question) then
        block_id <~ getitem block "id" ;;
        answer <- get_toggle_answer block_id ;;
        if nonempty (strip answer) then
          log DEBUG (lit "Found Q&A: " ++ take 50 question ++ lit "...") ;;
          ret (st.1, <[strip question := strip answer]> st.2)
        else ret st
      else ret st
    else ret st
  else ret st.

(** The [except (KeyError, IndexError, TypeError)] clause: warn and go on
    to the next block; any other exception leaves the function. *)
Definition skip_block (block : pyval) (st : gset pstr * gmap pstr pstr)
    (e : exn) : M (gset pstr * gmap pstr pstr) :=
  if lookup_error e then
    block_id <~ get block "id" (PStr "unknown") ;;
    log WARNING (lit "Error processing block " ++ fmt svc block_id
                 ++ lit ": " ++ str_exn svc e) ;;
    ret st
  else raise e.

Fixpoint analyze_loop (blocks : list pyval)
    (st : gset pstr * gmap pstr pstr) : M (gset pstr * gmap pstr pstr) :=
  match blocks with
  | [] => ret st
  | block :: rest =>
      block_type <~ get block "type" (PStr (lit "")) ;;
      st' <- try_except (analyze_block block block_type st)
                        (skip_block block st) ;;
      analyze_loop rest st'
  end.

Definition analyze_blocks (blocks : pyval) : M (gset pstr * gmap pstr pstr) :=
  sequence <~ iterate blocks ;;
  analyze_loop sequence (∅, ∅).

(** [return topics, content] or [return None] *)
Definition fetch_page_content (page_id : pstr)
    : M (option (gset pstr * gmap pstr pstr)) :=
  response <~ notion_children svc (PStr page_id) ;;
  blocks <~ getitem response "results" ;;
  found <- analyze_blocks blocks ;;
  if bool_decide (found.1 ≠ ∅) && bool_decide (found.2 ≠ ∅)
  then ret (Some found)
  else ret None.

(** [{'result': "Found", 'page_id': page['id'], 'link': page['url']}] *)
Definition found_page (page : pyval) : outcome pyval :=
  let? page_id := getitem page "id" in
  let? link := getitem page "url" in
  Return (dict_of ["result" ~> PStr "Found"; "page_id" ~> page_id;
                   "link" ~> link]).

(** [page['properties'][name]['title'][0]['text']['content']] *)
Definition title_content (page : pyval) (name : pstr) : outcome pyval :=
  let? properties := getitem page "properties" in
  let? property := getitem properties name in
  let? title := getitem property "title" in
  let? first := getindex title 0 in
  let? text := getitem first "text" in
  getitem text "content".

(** [name in page['properties']] *)
Definition has_property (page : pyval) (name : pstr) : outcome bool :=
  let? properties := getitem page "properties" in
  contains name properties.

(** The loop of search_notion_page; falling off its end is [return None]. *)
Fixpoint find_page (page_title : pstr) (pages : list pyval) : outcome pyval :=
  match pages with
  | [] => Return PNone
  | page :: rest =>
      let? has_title := has_property page "title" in
      if has_title then
        let? content := title_content page "title" in
        if eq_str content page_title then found_page page
        else find_page page_title rest
      else
        let? has_name := has_property page "Name" in
        if has_name then
          let? content := title_content page "Name" in
          if eq_str content page_title then found_page page
          else find_page page_title rest
        else find_page page_title rest
  end.

Definition search_notion_page (page_title : pstr) : M pyval :=
  pages <~ notion_search svc page_title "page" ;;
  if truthy pages then
    results <~ getitem pages "results" ;;
    sequence <~ iterate results ;;
    lift (find_page page_title sequence)
  else ret PNone.

(** [db['title'][0]['text']['content'] if db['title'][0].get('text') else ''] *)
Definition db_title (db : pyval) : outcome pyval :=
  let? title := getitem db "title" in
  let? first := getindex title 0 in
  let? text := get first "text" PNone in
  if truthy text then
    let? text' := getitem first "text" in
    getitem text' "content"
  else Return (PStr (lit "")).

(** The loop of search_notion_database: the first result whose title is
    [database_name], at which the source logs and returns; [None] when
    the loop falls off its end. *)
Fixpoint find_database (database_name : pstr) (dbs : list pyval)
    : outcome (option pyval) :=
  match dbs with
  | [] => Return None
  | db :: rest =>
      let? has_title := contains "title" db in
      let? titled :=
        if has_title then
          let? title := getitem db "title" in Return (truthy title)
        else Return false in
      if titled then
        let? name := db_title db in
        if eq_str name database_name then Return (Some db)
        else find_database database_name rest
      else find_database database_name rest
  end.

Definition search_notion_database (database_name : pstr) : M pyval :=
  try_except
    (log INFO (lit "Searching for database: " ++ database_name) ;;
     databases <~ notion_search svc database_name "database" ;;
     listed <~ (if truthy databases then
                  let? results := get databases "results" PNone in
                  Return (truthy results)
                else Return false) ;;
     hit <~ (if listed then
               let? results := getitem databases "results" in
               let? sequence := iterate results in
               find_database database_name sequence
             else Return None) ;;
     match hit with
     | Some db =>
         log INFO (lit "Found database: " ++ database_name) ;;
         database_id <~ getitem db "id" ;;
         link <~ getitem db "url" ;;
         ret (dict_of ["result" ~> PStr "Found";
                       "database_id" ~> database_id; "link" ~> link])
     | None =>
         log WARNING (lit "Database not found: " ++ database_name) ;;
         ret PNone
     end)
    (fun e =>
       log ERROR (lit "Error searching for database " ++ database_name
                  ++ lit ": " ++ str_exn svc e) ;;
       raise e).

End Notion.
End Notion.

(** ** anki.py *)

Module Anki.
Section Anki.
Context (svc : services).

(** [{'action': action, 'params': params, 'version': 6}] *)
Definition request (action : pstr) (params : list (pstr * pyval)) : pyval :=
  dict_of ["action" ~> PStr action; "params" ~> dict_of params;
           "version" ~> PInt 6].

(** [json.load(urllib.request.urlopen(req))]: the payload is posted, and
    counted as posted whether or not an answer comes back. *)
Definition post (payload : pyval) : M pyval :=
  fun w =>
    (World (w_log w) (w_sent w) (w_calls w ++ [payload]),
     urlopen svc (w_calls w) payload).

(** The checks invoke makes on the decoded response. *)
Definition check_response (response : pyval) : M pyval :=
  match response with
  | PDict d =>
      if negb (bool_decide (size d = 2)) then
        raise (Exception (lit "Invalid response structure: expected 2 fields, got "
                          ++ str_int (Z.of_nat (size d))))
      else if negb (bool_decide (is_Some (d !! lit "error"))) then
        raise (Exception (lit "Response is missing required error field"))
      else if negb (bool_decide (is_Some (d !! lit "result"))) then
        raise (Exception (lit "Response is missing required result field"))
      else
        error <~ getitem response "error" ;;
        match error with
        | PNone =>
            result <~ getitem response "result" ;;
            log DEBUG (lit "AnkiConnect response: " ++ fmt svc result) ;;
            ret result
        | _ => raise (Exception (lit "AnkiConnect error: " ++ fmt svc error))
        end
  | _ =>
      raise (Exception (lit "Invalid response structure: expected 2 fields, got non-dict"))
  end.

(** The three [except] clauses of invoke, in order. *)
Definition invoke_failed (e : exn) : M pyval :=
  match e with
  | URLError =>
      log ERROR (lit "Failed to connect to AnkiConnect: " ++ str_exn svc e) ;;
      raise (Exception (lit "Cannot connect to Anki. Please ensure Anki is running with AnkiConnect installed."))
  | JSONDecodeError =>
      log ERROR (lit "Invalid JSON response from AnkiConnect: " ++ str_exn svc e) ;;
      raise (Exception (lit "Invalid response from AnkiConnect"))
  | _ =>
      log ERROR (lit "AnkiConnect error: " ++ str_exn svc e) ;;
      raise e
  end.

Definition invoke (action : pstr) (params : list (pstr * pyval)) : M pyval :=
  try_except
    (log DEBUG (lit "AnkiConnect request: " ++ action ++ lit " with params: "
                ++ str_val svc (dict_of params)) ;;
     response <- post (request action params) ;;
     check_response response)
    invoke_failed.

(** add_card; its three arguments are strings. *)
Definition add_card (deck_name question answer : pstr) : M pyval :=
  if negb (nonempty deck_name) || negb (nonempty question)
     || negb (nonempty answer) then
    raise (ValueError (lit "Deck name, question, and answer are all required"))
  else
    let note :=
      dict_of ["deckName" ~> PStr (strip deck_name);
               "modelName" ~> PStr "Basic";
               "fields" ~> dict_of ["Front" ~> PStr (strip question);
                                    "Back" ~> PStr (strip answer)];
               "options" ~> dict_of ["allowDuplicate" ~> PBool false];
               "tags" ~> PList []] in
    log INFO (lit "Adding single card to deck '" ++ deck_name ++ lit "'") ;;
    invoke "guiAddCards" ["note" ~> note].

(** [all(field in note for field in fields)] *)
Fixpoint all_in (fields : list pstr) (note : pyval) : outcome bool :=
  match fields with
  | [] => Return true
  | field :: rest =>
      let? present := contains field note in
      if present then all_in rest note else Return false
  end.

Definition is_dict (v : pyval) : bool :=
  match v with
  | PDict _ => true
  | _ => false
  end.

(** [not isinstance(note['fields'], dict) or 'Front' not in note['fields']
     or 'Back' not in note['fields']] *)
Definition bad_fields (note : pyval) : outcome bool :=
  let? fields := getitem note "fields" in
  if negb (is_dict fields) then Return true
  else
    let? front := contains "Front" fields in
    if negb front then Return true
    else
      let? back := contains "Back" fields in
      Return (negb back).

(** The validation loop of add_notes, from index [i] on. *)
Fixpoint validate (i : Z) (notes valid_notes : list pyval) : M (list pyval) :=
  match notes with
  | [] => ret valid_notes
  | note :: rest =>
      if negb (is_dict note) then
        log WARNING (lit "Skipping invalid note at index " ++ str_int i
                     ++ lit ": not a dict") ;;
        validate (i + 1) rest valid_notes
      else
        complete <~ all_in [lit "deckName"; lit "modelName"; lit "fields"] note ;;
        if negb complete then
          log WARNING (lit "Skipping invalid note at index " ++ str_int i
                       ++ lit ": missing required fields") ;;
          validate (i + 1) rest valid_notes
        else
          bad <~ bad_fields note ;;
          if bad then
            log WARNING (lit "Skipping invalid note at index " ++ str_int i
                         ++ lit ": invalid fields structure") ;;
            validate (i + 1) rest valid_notes
          else validate (i + 1) rest (valid_notes ++ [note])
  end.

(** [sum(1 for r in result if r is not None)] *)
Definition success_count (result : list pyval) : nat :=
  length (List.filter (fun r => match r with PNone => false | _ => true end)
                      result).

Definition add_notes (notes : list pyval) : M pyval :=
  if bool_decide (length notes = 0) then
    log WARNING (lit "No notes provided to add_notes") ;;
    ret (PList [])
  else
    valid_notes <- validate 0 notes [] ;;
    if bool_decide (length valid_notes = 0) then
      log ERROR (lit "No valid notes to add") ;;
      ret (PList [])
    else
      log INFO (lit "Adding " ++ str_int (Z.of_nat (length valid_notes))
                ++ lit " notes to Anki") ;;
      result <- invoke "addNotes" ["notes" ~> PList valid_notes] ;;
      match result with
      | PList rs =>
          log INFO (lit "Successfully added "
                    ++ str_int (Z.of_nat (success_count rs)) ++ lit "/"
                    ++ str_int (Z.of_nat (length valid_notes)) ++ lit " notes") ;;
          ret result
      | _ => ret result
      end.

Definition create_deck (deck_name : pyval) : M pyval :=
  is_blank <~ blank deck_name ;;
  if is_blank then raise (ValueError (lit "Deck name cannot be empty"))
  else
    name <~ str_receiver deck_name ;;
    let deck_name := strip name in
    log INFO (lit "Creating/ensuring deck exists: '" ++ deck_name ++ lit "'") ;;
    try_except
      (result <- invoke "createDeck" ["deck" ~> PStr deck_name] ;;
       log INFO (lit "Deck '" ++ deck_name ++ lit "' created/verified successfully") ;;
       ret result)
      (fun e =>
         log ERROR (lit "Failed to create deck '" ++ deck_name ++ lit "': "
                    ++ str_exn svc e) ;;
         raise e).

Definition sync_decks : M unit :=
  log INFO (lit "Synchronizing Anki collection") ;;
  try_except
    (invoke "sync" [] ;;
     log INFO (lit "Anki sync completed successfully"))
    (fun e => log WARNING (lit "Anki sync failed: " ++ str_exn svc e)).

End Anki.
End Anki.

(** ** server.py *)

Module Server.
Section Server.
Context (svc : services).

Definition search_page (page_name : pyval) : M pyval :=
  is_blank <~ blank page_name ;;
  if is_blank then
    send_log_message ERROR (lit "Empty page name provided") ;;
    ret (dict_of ["status" ~> PStr "error";
                  "message" ~> PStr "Page name cannot be empty."])
  else
    try_except
      (name <~ str_receiver page_name ;;
       page <- Notion.search_notion_page svc (strip name) ;;
       if truthy page then
         send_log_message INFO (lit "Found page: " ++ fmt svc page_name) ;;
         ret (dict_of ["status" ~> PStr "success"; "page_name" ~> page_name;
                       "result" ~> page])
       else
         send_log_message WARNING (lit "Page not found: " ++ fmt svc page_name) ;;
         ret (dict_of ["status" ~> PStr "error"; "page_name" ~> page_name;
                       "message" ~> PStr "Page not found."]))
      (fun e =>
         send_log_message ERROR (lit "Error searching for page "
                                 ++ fmt svc page_name ++ lit ": " ++ str_exn svc e) ;;
         ret (dict_of ["status" ~> PStr "error"; "page_name" ~> page_name;
                       "message" ~> PStr (lit "Search failed: " ++ str_exn svc e)])).

(** The envelope extract_page_content returns on every failure. *)
Definition extraction_error (message : pstr) : pyval :=
  dict_of ["status" ~> PStr "error"; "topics" ~> PList [];
           "content" ~> PDict ∅; "message" ~> PStr message].

Definition extract_page_content (page_id : pyval) : M pyval :=
  is_blank <~ blank page_id ;;
  if is_blank then
    send_log_message ERROR (lit "Empty page ID provided") ;;
    ret (extraction_error (lit "Page ID cannot be empty."))
  else
    try_except
      (id <~ str_receiver page_id ;;
       fetched <- Notion.fetch_page_content svc (strip id) ;;
       (* [topics, content = ...]: unpacking [None] is a TypeError *)
       match fetched with
       | None => raise TypeError
       | Some (topics, content) =>
           if negb (bool_decide (topics ≠ ∅)) && negb (bool_decide (content ≠ ∅)) then
             send_log_message WARNING (lit "No content extracted from page "
                                       ++ fmt svc page_id) ;;
             ret (extraction_error (lit "No extractable content found in the page."))
           else
             send_log_message INFO
               (lit "Extracted " ++ str_int (Z.of_nat (size topics))
                ++ lit " topics and " ++ str_int (Z.of_nat (size content))
                ++ lit " Q&A pairs from page " ++ fmt svc page_id) ;;
             ret (dict_of ["status" ~> PStr "success";
                           "topics" ~> PList (map PStr (elements topics));
                           "content" ~> PDict (PStr <$> content);
                           "message" ~> PStr (lit "Extracted topics and content from page ID: "
                                              ++ fmt svc page_id)])
       end)
      (fun e =>
         send_log_message ERROR (lit "Error extracting content from page "
                                 ++ fmt svc page_id ++ lit ": " ++ str_exn svc e) ;;
         ret (extraction_error (lit "Content extraction failed: " ++ str_exn svc e))).

Definition post_flashcards (page_name : pyval) (cards : list pyval) : M pyval :=
  let count := str_int (Z.of_nat (length cards)) in
  try_except
    (log INFO (lit "Creating deck: " ++ fmt svc page_name) ;;
     Anki.create_deck svc page_name ;;
     log INFO (lit "Adding " ++ count ++ lit " notes to deck") ;;
     result <- Anki.add_notes svc cards ;;
     log INFO (lit "Syncing Anki decks") ;;
     Anki.sync_decks svc ;;
     log INFO (lit "Successfully added " ++ count ++ lit " flashcards to deck '"
               ++ fmt svc page_name ++ lit "'") ;;
     ret (dict_of ["status" ~> PStr "added"; "result" ~> result;
                   "message" ~> PStr (lit "Added " ++ count
                                      ++ lit " flashcards to Anki deck '"
                                      ++ fmt svc page_name ++ lit "'")]))
    (fun e =>
       log ERROR (lit "Error adding flashcards to Anki: " ++ str_exn svc e) ;;
       ret (dict_of ["status" ~> PStr "error"; "result" ~> PList [];
                     "message" ~> PStr (lit "Failed to add flashcards: "
                                        ++ str_exn svc e)])).

(** The envelope generate_flashcards returns on every failure. *)
Definition generation_failed (cards : list pyval) (message : pstr) : pyval :=
  dict_of ["status" ~> PStr "failed"; "cards" ~> PList cards;
           "message" ~> PStr message].

Definition generate_flashcards (page_name : pyval) (topics : list pstr)
    (content : gmap pstr pstr) : M pyval :=
  is_blank <~ blank page_name ;;
  if is_blank then
    send_log_message ERROR (lit "Empty page name provided for flashcard generation") ;;
    ret (generation_failed [] (lit "Page name cannot be empty"))
  else if bool_decide (length topics = 0) && bool_decide (content = ∅) then
    send_log_message ERROR (lit "No topics or content provided for flashcard generation") ;;
    ret (generation_failed [] (lit "No topics or content provided"))
  else if bool_decide (content = ∅) then
    send_log_message WARNING (lit "No content (Q&A pairs) found for flashcard generation") ;;
    ret (generation_failed [] (lit "No question-answer content found to generate flashcards"))
  else
    try_except
      (send_log_message INFO
         (lit "Generating flashcards for '" ++ fmt svc page_name ++ lit "' with "
          ++ str_int (Z.of_nat (length topics)) ++ lit " topics and "
          ++ str_int (Z.of_nat (size content)) ++ lit " Q&A pairs") ;;
       llm_cards <~ flashcards_gpt svc page_name topics content ;;
       let count := str_int (Z.of_nat (length llm_cards)) in
       if bool_decide (length llm_cards = 0) then
         send_log_message WARNING (lit "No flashcards generated by LLM") ;;
         ret (generation_failed [] (lit "No flashcards were generated"))
       else
         send_log_message INFO (lit "Generated " ++ count
                                ++ lit " flashcards, adding to Anki") ;;
         publish_result <- post_flashcards page_name llm_cards ;;
         status <~ getitem publish_result "status" ;;
         if eq_str status "added" then
           ret (dict_of ["status" ~> PStr "created"; "cards" ~> PList llm_cards;
                         "message" ~> PStr (lit "Created " ++ count
                                            ++ lit " flashcards for '"
                                            ++ fmt svc page_name ++ lit "' in Anki")])
         else
           message <~ getitem publish_result "message" ;;
           ret (generation_failed llm_cards
                  (lit "Generated cards but failed to add to Anki: "
                   ++ fmt svc message)))
      (fun e =>
         send_log_message ERROR (lit "Error generating flashcards for '"
                                 ++ fmt svc page_name ++ lit "': " ++ str_exn svc e) ;;
         ret (generation_failed [] (lit "Flashcard generation failed: "
                                    ++ str_exn svc e))).

End Server.
End Server.

(** ** Reading a document: what a block says *)

(** The text an inline run carries: its ['text']['content']; a run with no
    'text' entry (a mention, an equation) carries none. *)
Definition run_text (run : pyval) : option pstr :=
  match run with
  | PDict d =>
      match d !! lit "text" with
      | None => Some []
      | Some (PDict t) =>
          match t !! lit "content" with
          | Some (PStr s) => Some s
          | _ => None
          end
      | Some _ => None
      end
  | _ => None
  end.

Fixpoint runs_text (runs : list pyval) : option pstr :=
  match runs with
  | [] => Some []
  | run :: rest =>
      match run_text run, runs_text rest with
      | Some s, Some t => Some (s ++ t)
      | _, _ => None
      end
  end.

(** The text of a block of type [ty]: the concatenation of the text of the
    inline runs under [block[ty]['rich_text']]. *)
Definition block_text (ty : pstr) (block : pyval) : option pstr :=
  match block with
  | PDict d =>
      match d !! lit "type", d !! ty with
      | Some (PStr ty'), Some (PDict data) =>
          if bool_decide (ty' = ty) then
            match data !! lit "rich_text" with
            | Some (PList runs) => runs_text runs
            | _ => None
            end
          else None
      | _, _ => None
      end
  | _ => None
  end.

(** The block's type tag is 'numbered_list_item'. *)
Definition is_numbered (block : pyval) : bool :=
  match getitem block "type" with
  | Return ty => eq_str ty "numbered_list_item"
  | Raise _ => false
  end.

(** The counter the next numbered item gets, in the words of the
    specification: 1 when the previous sibling was not a numbered item,
    one more than the previous item's counter when it was. *)
Definition next_number (st : Notion.walk) : Z :=
  if eq_str (Notion.previous_type st) "numbered_list_item"
  then (Notion.number st + 1)%Z else 1%Z.

(** The ['status'] of an envelope a tool returned. *)
Definition status_of (o : outcome pyval) : option pstr :=
  match o with
  | Return (PDict d) =>
      match d !! lit "status" with
      | Some (PStr s) => Some s
      | _ => None
      end
  | _ => None
  end.

(** ** Documents and stand-in services for concrete runs *)

Definition text_run (s : pstr) : pyval :=
  dict_of ["type" ~> PStr "text"; "text" ~> dict_of ["content" ~> PStr s];
           "plain_text" ~> PStr s].

Definition block_of (id ty text : pstr) : pyval :=
  dict_of ["object" ~> PStr "block"; "id" ~> PStr id; "type" ~> PStr ty;
           ty ~> dict_of ["rich_text" ~> PList [text_run text]]].

Definition listing (results : list pyval) : pyval :=
  dict_of ["object" ~> PStr "list"; "results" ~> PList results].

(** Services given by a search answer, a table of children by block id and
    an AnkiConnect endpoint; the completion call echoes no card. *)
Definition services_of (search : outcome pyval)
    (children : list (pstr * pyval))
    (anki : list pyval -> pyval -> outcome pyval) : services :=
  Services (fun _ _ => search)
           (fun id => match id with
                      | PStr s => match (list_to_map children : gmap pstr pyval) !! s with
                                  | Some r => Return r
                                  | None => Raise (ServiceError 404)
                                  end
                      | _ => Raise (ServiceError 400)
                      end)
           (fun _ _ _ => Return [])
           anki
           (fun _ => lit "error")
           (fun _ => lit "value").

Definition no_anki : list pyval -> pyval -> outcome pyval :=
  fun _ _ => Raise URLError.

(** A toggle whose children are paragraph A, bullet B, numbered C and D. *)
Definition abcd_children : list pyval :=
  [block_of "c1" "paragraph" (lit "A");
   block_of "c2" "bulleted_list_item" (lit "B");
   block_of "c3" "numbered_list_item" (lit "C");
   block_of "c4" "numbered_list_item" (lit "D")].

Definition abcd_services : services :=
  services_of (Raise (ServiceError 500)) ["t1" ~> listing abcd_children] no_anki.

(** A toggle whose children are numbered X, a divider (a type the walk
    does not render), numbered Y. *)
Definition xdy_children : list pyval :=
  [block_of "c1" "numbered_list_item" (lit "X");
   dict_of ["object" ~> PStr "block"; "id" ~> PStr "c2";
            "type" ~> PStr "divider"; "divider" ~> dict_of []];
   block_of "c3" "numbered_list_item" (lit "Y")].

(** A toggle whose children are numbered X, paragraph gap, numbered Y. *)
Definition xgy_children : list pyval :=
  [block_of "c1" "numbered_list_item" (lit "X");
   block_of "c2" "paragraph" (lit "gap");
   block_of "c3" "numbered_list_item" (lit "Y")].

(** ** What one block contributes *)

(** The effect of one top-level block on the walk, apart from the log:
    nothing, a topic (kept here untrimmed), or a question with its
    reconstructed answer (both untrimmed). *)
Inductive contribution :=
| Nothing
| Topic (heading : pstr)
| Answer (question answer : pstr).

(** The [try] body of analyze_blocks read as a function of the block
    alone; [analyze_block_contribution] below shows it is what
    [Notion.analyze_block] computes. *)
Definition contribution_of (svc : services) (block block_type : pyval)
    : outcome contribution :=
  let? is_heading := contains "heading" block_type in
  if is_heading then
    let? heading_data := get_key block block_type (PDict ∅) in
    let? rich_text := get heading_data "rich_text" (PList []) in
    let? has_text := Notion.first_text rich_text in
    if has_text then
      let? content := Notion.first_content rich_text in
      let? heading := str_receiver content in
      if nonempty (strip heading) then Return (Topic heading) else Return Nothing
    else Return Nothing
  else if eq_str block_type "toggle" then
    let? toggle_data := get block "toggle" (PDict ∅) in
    let? rich_text := get toggle_data "rich_text" (PList []) in
    let? has_text := Notion.first_text rich_text in
    if has_text then
      let? content := Notion.first_content rich_text in
      let? question := str_receiver content in
      if nonempty (strip question) then
        let? block_id := getitem block "id" in
        let? toggle_children := notion_children svc block_id in
        let? answer := Notion.toggle_answer toggle_children in
        if nonempty (strip answer) then Return (Answer question answer)
        else Return Nothing
      else Return Nothing
    else Return Nothing
  else Return Nothing.

Definition contribute (c : contribution) (st : gset pstr * gmap pstr pstr)
    : M (gset pstr * gmap pstr pstr) :=
  match c with
  | Nothing => ret st
  | Topic heading =>
      log DEBUG (lit "Found heading: " ++ heading) ;;
      ret ({[strip heading]} ∪ st.1, st.2)
  | Answer question answer =>
      log DEBUG (lit "Found Q&A: " ++ take 50 question ++ lit "...") ;;
      ret (st.1, <[strip question := strip answer]> st.2)
  end.

(** A block whose processing raises one of the three exceptions the walk
    catches: what a missing key, a missing list element or a field of a
    non-subscriptable type raises. *)
Definition malformed (svc : services) (block : pyval) : bool :=
  match get block "type" (PStr (lit "")) with
  | Return block_type =>
      match contribution_of svc block block_type with
      | Raise e => lookup_error e
      | Return _ => false
      end
  | Raise _ => false
  end.

(** A computation that only appends fixed records to the log and whose
    outcome does not depend on the world it starts from. *)
Definition log_only {A} (m : M A) : Prop :=
  exists records o, forall w, m w = (add_log records w, o).

(** The records a contribution sends to the log, and the topics and
    content it leaves. *)
Definition contribution_log (c : contribution) : list (level * pstr) :=
  match c with
  | Nothing => []
  | Topic heading => [(DEBUG, lit "Found heading: " ++ heading)]
  | Answer question _ =>
      [(DEBUG, lit "Found Q&A: " ++ take 50 question ++ lit "...")]
  end.

Definition absorb (c : contribution) (st : gset pstr * gmap pstr pstr)
    : gset pstr * gmap pstr pstr :=
  match c with
  | Nothing => st
  | Topic heading => ({[strip heading]} ∪ st.1, st.2)
  | Answer question answer => (st.1, <[strip question := strip answer]> st.2)
  end.

(** The warning the walk logs when it skips [block] after exception [e]. *)
Definition skip_warning (svc : services) (block : pyval) (e : exn)
    : level * pstr :=
  (WARNING,
   lit "Error processing block "
   ++ fmt svc (match get block "id" (PStr "unknown") with
               | Return id => id
               | Raise _ => PNone
               end)
   ++ lit ": " ++ str_exn svc e).

(** The content of the first inline run of a block of type [ty], the
    candidate heading or question: [block[ty]['rich_text'][0]['text']['content']]
    when every step is there and the content is a string. *)
Definition first_run (ty : pstr) (block : pyval) : option pstr :=
  match block with
  | PDict d =>
      match d !! ty with
      | Some (PDict data) =>
          match data !! lit "rich_text" with
          | Some (PList (PDict run :: _)) =>
              match run !! lit "text" with
              | Some (PDict t) =>
                  match t !! lit "content" with
                  | Some (PStr s) => Some s
                  | _ => None
                  end
              | _ => None
              end
          | _ => None
          end
      | _ => None
      end
  | _ => None
  end.

(** The payload of a block lacks a field the walk reads with a default:
    the payload itself, its 'rich_text', or the 'text' of the first run. *)
Definition missing_text (payload : option pyval) : bool :=
  match payload with
  | None => true
  | Some (PDict data) =>
      match data !! lit "rich_text" with
      | None => true
      | Some (PList (PDict run :: _)) =>
          match run !! lit "text" with
          | None => true
          | Some _ => false
          end
      | Some _ => false
      end
  | Some _ => false
  end.

(** A heading or toggle block with such a field missing, or a block with
    no 'type' at all. *)
Definition defaulted (block : pyval) : bool :=
  match block with
  | PDict d =>
      match d !! lit "type" with
      | None => true
      | Some (PStr ty) =>
          if substring_of "heading" ty then missing_text (d !! ty)
          else if bool_decide (ty = lit "toggle") then missing_text (d !! ty)
          else false
      | Some _ => false
      end
  | _ => false
  end.

(** A heading whose text has no 'content'. *)
Definition broken_heading : pyval :=
  dict_of ["object" ~> PStr "block"; "id" ~> PStr "h0"; "type" ~> PStr "heading_1";
           "heading_1" ~>
             dict_of ["rich_text" ~>
                        PList [dict_of ["type" ~> PStr "text";
                                        "text" ~> dict_of ["link" ~> PNone]]]]].

(** A toggle with no 'toggle' payload. *)
Definition bare_toggle : pyval :=
  dict_of ["object" ~> PStr "block"; "id" ~> PStr "t0"; "type" ~> PStr "toggle"].

(** Page "Topic1": a heading and one toggle, "What is X?", whose only
    child is the paragraph "X is Y.". *)
Definition topic1_heading : pyval := block_of "h1" "heading_1" (lit "Topic1").
Definition topic1_toggle : pyval := block_of "t1" "toggle" (lit "What is X?").
Definition topic1_answer : pyval := block_of "c1" "paragraph" (lit "X is Y.").

Definition topic1_services : services :=
  services_of (Raise (ServiceError 500))
    ["page1" ~> listing [topic1_heading; topic1_toggle];
     "page2" ~> listing [topic1_toggle];
     "t1" ~> listing [topic1_answer]]
    no_anki.

(** Every topic and every question and answer kept so far is non-empty
    after trimming. *)
Definition clean (st : gset pstr * gmap pstr pstr) : Prop :=
  (forall t, t ∈ st.1 -> strip t <> []) /\
  (forall q a, st.2 !! q = Some a -> strip q <> [] /\ strip a <> []).


(** ** Notes *)

(** The structural requirement on a note, in the words of the
    specification: a dict with a deck name, a model name and a fields
    mapping that has both 'Front' and 'Back'. *)
Definition well_formed_note (note : pyval) : bool :=
  match note with
  | PDict d =>
      bool_decide (is_Some (d !! lit "deckName"))
      && bool_decide (is_Some (d !! lit "modelName"))
      && match d !! lit "fields" with
         | Some (PDict fields) =>
             bool_decide (is_Some (fields !! lit "Front"))
             && bool_decide (is_Some (fields !! lit "Back"))
         | _ => false
         end
  | _ => false
  end.

(** A note of the shape add_card builds. *)
Definition basic_note (deck front back : pstr) : pyval :=
  dict_of ["deckName" ~> PStr deck; "modelName" ~> PStr "Basic";
           "fields" ~> dict_of ["Front" ~> PStr front; "Back" ~> PStr back];
           "options" ~> dict_of ["allowDuplicate" ~> PBool false];
           "tags" ~> PList []].

(** A note with no 'fields' mapping. *)
Definition note_without_fields : pyval :=
  dict_of ["deckName" ~> PStr "Topic1"; "modelName" ~> PStr "Basic"].

(** An AnkiConnect endpoint that creates decks and adds notes, and whose
    [sync] action cannot reach AnkiWeb. *)
Definition anki_without_sync : list pyval -> pyval -> outcome pyval :=
  fun _ payload =>
    match getitem payload "action" with
    | Return action =>
        if eq_str action "sync" then Raise URLError
        else if eq_str action "addNotes" then
          Return (dict_of ["result" ~> PList [PInt 12345]; "error" ~> PNone])
        else Return (dict_of ["result" ~> PInt 1; "error" ~> PNone])
    | Raise e => Raise e
    end.

Definition publish_services : services :=
  services_of (Raise (ServiceError 500)) [] anki_without_sync.

(** ** Search results *)

(** A page object whose title-type property is named [property] and holds
    the inline runs [title]; an untitled page holds none. *)
Definition page_of (id property : pstr) (title : list pyval) : pyval :=
  dict_of ["object" ~> PStr "page"; "id" ~> PStr id;
           "url" ~> PStr (lit "https://www.notion.so/" ++ id);
           "properties" ~>
             dict_of [property ~>
                        dict_of ["id" ~> PStr "title"; "type" ~> PStr "title";
                                 "title" ~> PList title]]].

Definition untitled_page : pyval := page_of "p0" "title" [].
Definition topic1_page : pyval := page_of "p1" "title" [text_run (lit "Topic1")].
Definition named_page : pyval := page_of "p2" "Name" [text_run (lit "Topic1")].

(** A database object with the inline runs [title] as its title. *)
Definition database_of (id : pstr) (title : list pyval) : pyval :=
  dict_of ["object" ~> PStr "database"; "id" ~> PStr id;
           "url" ~> PStr (lit "https://www.notion.so/" ++ id);
           "title" ~> PList title].

(** Services whose search answers with [results]. *)
Definition search_services (results : list pyval) : services :=
  services_of (Return (listing results)) [] no_anki.


(** ** AnkiConnect answers and requests *)

(** The result carried by an answer that invoke accepts: a dict with
    exactly the two keys 'error' and 'result' whose error is None. *)
Definition accepted (answer : outcome pyval) : option pyval :=
  match answer with
  | Return (PDict d) =>
      if bool_decide (size d = 2) then
        match d !! lit "error", d !! lit "result" with
        | Some PNone, Some result => Some result
        | _, _ => None
        end
      else None
  | _ => None
  end.

(** The exception invoke raises for an answer it does not accept. *)
Definition refused (svc : services) (answer : outcome pyval) : exn :=
  match answer with
  | Raise URLError =>
      Exception (lit "Cannot connect to Anki. Please ensure Anki is running with AnkiConnect installed.")
  | Raise JSONDecodeError => Exception (lit "Invalid response from AnkiConnect")
  | Raise e => e
  | Return (PDict d) =>
      if negb (bool_decide (size d = 2)) then
        Exception (lit "Invalid response structure: expected 2 fields, got "
                   ++ str_int (Z.of_nat (size d)))
      else
        match d !! lit "error", d !! lit "result" with
        | None, _ => Exception (lit "Response is missing required error field")
        | Some _, None => Exception (lit "Response is missing required result field")
        | Some error, Some _ => Exception (lit "AnkiConnect error: " ++ fmt svc error)
        end
  | Return _ =>
      Exception (lit "Invalid response structure: expected 2 fields, got non-dict")
  end.

(** An endpoint that answers every request with [answer]. *)
Definition anki_answering (answer : outcome pyval) : services :=
  services_of (Raise (ServiceError 500)) [] (fun _ _ => answer).

(** The three requests of a publication. *)
Definition deck_request (name : pstr) : pyval :=
  Anki.request "createDeck" ["deck" ~> PStr (strip name)].

Definition notes_request (notes : list pyval) : pyval :=
  Anki.request "addNotes" ["notes" ~> PList notes].

Definition sync_request : pyval := Anki.request "sync" [].

(** The outcome of a request, as invoke reports it. *)
Definition invoked (svc : services) (calls : list pyval) (payload : pyval)
    : outcome pyval :=
  match accepted (urlopen svc calls payload) with
  | Some result => Return result
  | None => Raise (refused svc (urlopen svc calls payload))
  end.

(** The requests post_flashcards makes, in order, when [calls] were made
    before: the deck, then the well-formed notes if there are any, then
    the sync; a step is made only if the steps before it were accepted. *)
Definition publish_trace (svc : services) (page_name : pyval)
    (cards : list pyval) (calls : list pyval) : list pyval :=
  match blank page_name, page_name with
  | Return false, PStr name =>
      match invoked svc calls (deck_request name) with
      | Raise _ => [deck_request name]
      | Return _ =>
          match List.filter well_formed_note cards with
          | [] => [deck_request name; sync_request]
          | valid =>
              match invoked svc (calls ++ [deck_request name]) (notes_request valid) with
              | Raise _ => [deck_request name; notes_request valid]
              | Return _ => [deck_request name; notes_request valid; sync_request]
              end
          end
      end
  | _, _ => []
  end.

(** The result post_flashcards reports, or the exception that ends the
    publication. *)
Definition published (svc : services) (page_name : pyval)
    (cards : list pyval) (calls : list pyval) : outcome pyval :=
  match blank page_name, page_name with
  | Return false, PStr name =>
      match invoked svc calls (deck_request name) with
      | Raise e => Raise e
      | Return _ =>
          match List.filter well_formed_note cards with
          | [] => Return (PList [])
          | valid => invoked svc (calls ++ [deck_request name]) (notes_request valid)
          end
      end
  | Return _, _ => Raise (ValueError (lit "Deck name cannot be empty"))
  | Raise e, _ => Raise e
  end.

(** Cards as the completion service may return them, none of which has a
    fields mapping, and services whose completion call returns them. *)
Definition gpt_services (cards : list pyval)
    (anki : list pyval -> pyval -> outcome pyval) : services :=
  Services (fun _ _ => Raise (ServiceError 500))
           (fun _ => Raise (ServiceError 404))
           (fun _ _ _ => Return cards)
           anki
           (fun _ => lit "error")
           (fun _ => lit "value").

(** The cards generate_flashcards goes on to publish: the non-empty list
    the completion call returns, when the page name is not blank and
    there is content. *)
Definition generated (svc : services) (page_name : pyval)
    (topics : list pstr) (content : gmap pstr pstr) : option (list pyval) :=
  match blank page_name with
  | Return false =>
      if bool_decide (content = ∅) then None
      else
        match flashcards_gpt svc page_name topics content with
        | Return (card :: cards) => Some (card :: cards)
        | _ => None
        end
  | _ => None
  end.

(** An endpoint that accepts every request with the result 1. *)
Definition anki_accepting : list pyval -> pyval -> outcome pyval :=
  fun _ _ => Return (dict_of ["result" ~> PInt 1; "error" ~> PNone]).

(** ** Runs of numbered items *)

(** How many numbered items a sequence of blocks starts with. *)
Fixpoint leading_numbered (blocks : list pyval) : nat :=
  match blocks with
  | block :: rest => if is_numbered block then S (leading_numbered rest) else 0
  | [] => 0
  end.

(** How many consecutive numbered items a sequence of blocks ends with. *)
Definition numbered_run (blocks : list pyval) : nat :=
  leading_numbered (rev blocks).

(** A child block with no 'type'. *)
Definition untyped_child : pyval :=
  dict_of ["object" ~> PStr "block"; "id" ~> PStr "c9";
           "paragraph" ~> dict_of ["rich_text" ~> PList [text_run (lit "lost")]]].

(** ** The walk in closed form *)

(** The topic a block gives: the trimmed first run of a block whose type
    contains "heading", when it is not blank. *)
Definition heading_text (block : pyval) : option pstr :=
  match get block "type" (PStr (lit "")) with
  | Return (PStr ty) =>
      if substring_of "heading" ty then
        match first_run ty block with
        | Some h => if nonempty (strip h) then Some (strip h) else None
        | None => None
        end
      else None
  | _ => None
  end.

(** The question and answer a block gives, both trimmed: those of a toggle
    with a first run that is not blank, whose children can be fetched and
    read and give an answer that is not blank. *)
Definition toggle_pair (svc : services) (block : pyval) : option (pstr * pstr) :=
  match get block "type" (PStr (lit "")) with
  | Return (PStr ty) =>
      if bool_decide (ty = lit "toggle") then
        match first_run "toggle" block with
        | Some q =>
            if nonempty (strip q) then
              match (let? block_id := getitem block "id" in
                     let? toggle_children := notion_children svc block_id in
                     Notion.toggle_answer toggle_children) with
              | Return a =>
                  if nonempty (strip a) then Some (strip q, strip a) else None
              | Raise _ => None
              end
            else None
        | None => None
        end
      else None
  | _ => None
  end.

(** The exception with which a block ends the walk: one raised outside the
    [try], or one the [except] clause does not name. *)
Definition fatal (svc : services) (block : pyval) : option exn :=
  match get block "type" (PStr (lit "")) with
  | Raise e => Some e
  | Return block_type =>
      match contribution_of svc block block_type with
      | Raise e => if lookup_error e then None else Some e
      | Return _ => None
      end
  end.

(** [content[q] = a] for each pair in turn. *)
Definition store_pairs (content : gmap pstr pstr) (pairs : list (pstr * pstr))
    : gmap pstr pstr :=
  foldl (fun m p => <[p.1 := p.2]> m) content pairs.

(** Two toggles asking the same question, up to blanks, with different
    answers. *)
Definition asked_twice : list pyval :=
  [block_of "t1" "toggle" (lit "What is X?");
   block_of "t2" "toggle" (lit " What is X? ")].

Definition asked_twice_services : services :=
  services_of (Raise (ServiceError 500))
    ["t1" ~> listing [block_of "c1" "paragraph" (lit "X is Y.")];
     "t2" ~> listing [block_of "c2" "paragraph" (lit "X is Z.")]]
    no_anki.

(** ** Titles of search results *)

(** The title search_notion_page compares for a result: the one under the
    property "title" when the page has that property, else the one under
    "Name"; [None] for a page with neither. *)
Definition shown_title (page : pyval) : outcome pyval :=
  let? has_title := Notion.has_property page "title" in
  if has_title then Notion.title_content page "title"
  else
    let? has_name := Notion.has_property page "Name" in
    if has_name then Notion.title_content page "Name" else Return PNone.

(** The result can be read and shows the title [page_title]. *)
Definition titled (page_title : pstr) (page : pyval) : bool :=
  match shown_title page with
  | Return content => eq_str content page_title
  | Raise _ => false
  end.






(** Services whose search fails. *)
Definition search_down : services :=
  services_of (Raise (ServiceError 503)) [] no_anki.
(** * Properties *)

(** *** Rendering the children of a toggle *)

(** Bring nested concatenations of literals and texts to one right-nested
    form. *)
Ltac flatten :=
  repeat first
    [ rewrite <- app_assoc
    | rewrite <- app_comm_cons
    | progress (cbn [app lit map String.list_ascii_of_string]) ].

Lemma block_text_inv ty block s :
  block_text ty block = Some s ->
  exists d data runs,
    block = PDict d /\ d !! lit "type" = Some (PStr ty) /\
    d !! ty = Some (PDict data) /\
    data !! lit "rich_text" = Some (PList runs) /\ runs_text runs = Some s.
Proof.
  destruct block as [| | | | |d]; try discriminate. unfold block_text.
  destruct (d !! lit "type") as [[| | |ty'| |]|] eqn:Hty; try discriminate.
  destruct (d !! ty) as [[| | | | |data]|] eqn:Hdata; try discriminate.
  case_bool_decide as Heq; [subst ty'|discriminate].
  destruct (data !! lit "rich_text") as [[| | | |runs|]|] eqn:Hrt; try discriminate.
  intros Hs. now exists d, data, runs.
Qed.

Lemma join_excerpts_text runs t acc :
  runs_text runs = Some t ->
  Notion.join_excerpts acc runs = Return (acc ++ t).
Proof.
  revert t acc. induction runs as [|run rest IH]; intros t acc H.
  - injection H as <-. now rewrite app_nil_r.
  - cbn [runs_text] in H.
    destruct (run_text run) as [s|] eqn:Hr; [|discriminate].
    destruct (runs_text rest) as [t'|] eqn:Ht; [|discriminate].
    injection H as <-.
    destruct run as [| | | |? |d]; try discriminate.
    cbn [Notion.join_excerpts contains and_then].
    unfold run_text in Hr.
    destruct (d !! lit "text") as [[| | | | |tx]|] eqn:Hd; try discriminate.
    + destruct (tx !! lit "content") as [[| | |c| |]|] eqn:Hc; try discriminate.
      injection Hr as <-.
      rewrite bool_decide_eq_true_2 by eauto.
      cbn [getitem and_then]. rewrite Hd. cbn [getitem and_then]. rewrite Hc.
      cbn [add_str and_then]. rewrite (IH t') by reflexivity.
      now rewrite app_assoc.
    + injection Hr as <-.
      rewrite bool_decide_eq_false_2 by (intros [? ?]; discriminate).
      now apply IH.
Qed.

(** Reading the runs of a block of a known type. *)
Lemma block_runs ty block s :
  block_text ty block = Some s ->
  exists data runs,
    getitem block "type" = Return (PStr ty) /\
    getitem block ty = Return data /\
    getitem data "rich_text" = Return runs /\
    forall acc, Notion.join_runs acc runs = Return (acc ++ s).
Proof.
  intros (d & data & runs & -> & Hty & Hdata & Hrt & Hs)%block_text_inv.
  exists (PDict data), (PList runs). repeat split.
  - cbn [getitem]. now rewrite Hty.
  - cbn [getitem]. now rewrite Hdata.
  - cbn [getitem]. now rewrite Hrt.
  - intros acc. unfold Notion.join_runs. cbn [iterate and_then].
    now apply join_excerpts_text.
Qed.

Lemma toggle_step_paragraph st block s :
  block_text "paragraph" block = Some s ->
  Notion.toggle_step st block =
  Return (Notion.Walk (Notion.answer st ++ (s ++ nl)) (Notion.number st)
                      (PStr "paragraph")).
Proof.
  intros (data & runs & Hty & Hdata & Hrt & Hruns)%block_runs.
  unfold Notion.toggle_step. rewrite Hty. cbn [and_then].
  replace (eq_str (PStr "paragraph") "paragraph") with true by (now vm_compute).
  rewrite Hdata. cbn [and_then]. rewrite Hrt. cbn [and_then].
  rewrite Hruns. reflexivity.
Qed.

Lemma toggle_step_bulleted st block s :
  block_text "bulleted_list_item" block = Some s ->
  Notion.toggle_step st block =
  Return (Notion.Walk (Notion.answer st ++ ((lit "- " ++ s) ++ nl))
                      (Notion.number st) (PStr "bulleted_list_item")).
Proof.
  intros (data & runs & Hty & Hdata & Hrt & Hruns)%block_runs.
  unfold Notion.toggle_step. rewrite Hty. cbn [and_then].
  replace (eq_str (PStr "bulleted_list_item") "paragraph") with false by (now vm_compute).
  replace (eq_str (PStr "bulleted_list_item") "bulleted_list_item") with true by (now vm_compute).
  rewrite Hdata. cbn [and_then]. rewrite Hrt. cbn [and_then].
  rewrite Hruns. reflexivity.
Qed.

Lemma toggle_step_numbered st block s :
  block_text "numbered_list_item" block = Some s ->
  Notion.toggle_step st block =
  Return (Notion.Walk
            (Notion.answer st ++ ((str_int (next_number st) ++ lit ". " ++ s) ++ nl))
            (next_number st) (PStr "numbered_list_item")).
Proof.
  intros (data & runs & Hty & Hdata & Hrt & Hruns)%block_runs.
  unfold Notion.toggle_step. rewrite Hty. cbn [and_then].
  replace (eq_str (PStr "numbered_list_item") "paragraph") with false by (now vm_compute).
  replace (eq_str (PStr "numbered_list_item") "bulleted_list_item") with false by (now vm_compute).
  replace (eq_str (PStr "numbered_list_item") "numbered_list_item") with true by (now vm_compute).
  rewrite Hdata. cbn [and_then]. rewrite Hrt. cbn [and_then].
  unfold next_number. rewrite Hruns. cbn [and_then Notion.answer Notion.number].
  now rewrite <- (app_assoc (str_int _) (lit ". ") s).
Qed.

(** C1.  When the children of a toggle block are, in order, a paragraph
    with text [sa], a bulleted item with text [sb] and two numbered items
    with texts [sc] and [sd], get_toggle_answer returns exactly
    [sa "\n" "- " sb "\n" "1. " sc "\n" "2. " sd "\n"]: a paragraph renders
    as its text and one line break, a bulleted item as "- ", its text and a
    line break, a numbered item as its counter, ". ", its text and a line
    break.  For the texts A, B, C and D this is the string
    "A\n- B\n1. C\n2. D\n". *)
Theorem toggle_answer_renders_children svc block_id response p b c d sa sb sc sd w :
  notion_children svc block_id = Return response ->
  getitem response "results" = Return (PList [p; b; c; d]) ->
  block_text "paragraph" p = Some sa ->
  block_text "bulleted_list_item" b = Some sb ->
  block_text "numbered_list_item" c = Some sc ->
  block_text "numbered_list_item" d = Some sd ->
  Notion.get_toggle_answer svc block_id w =
  (w, Return ((sa ++ nl) ++ (lit "- " ++ sb ++ nl) ++ (lit "1. " ++ sc ++ nl)
              ++ (lit "2. " ++ sd ++ nl))).
Proof.
  intros Hsvc Hres Hp Hb Hc Hd.
  unfold Notion.get_toggle_answer, bind, lift. rewrite Hsvc.
  unfold Notion.toggle_answer. rewrite Hres. cbn [and_then iterate Notion.toggle_loop].
  rewrite (toggle_step_paragraph _ _ _ Hp). cbn [and_then].
  rewrite (toggle_step_bulleted _ _ _ Hb). cbn [and_then].
  rewrite (toggle_step_numbered _ _ _ Hc). cbn [and_then].
  rewrite (toggle_step_numbered _ _ _ Hd). cbn [and_then].
  unfold next_number. cbn [Notion.previous_type Notion.number Notion.answer].
  replace (eq_str (PStr "bulleted_list_item") "numbered_list_item") with false by (now vm_compute).
  replace (eq_str (PStr "numbered_list_item") "numbered_list_item") with true by (now vm_compute).
  do 2 f_equal. change (str_int 1) with (lit "1"). change (str_int (1 + 1)) with (lit "2").
  flatten. reflexivity.
Qed.

Lemma toggle_answer_renders_children_witness :
  Notion.get_toggle_answer abcd_services (PStr "t1") world0 =
  (world0, Return (lit "A" ++ nl ++ lit "- B" ++ nl ++ lit "1. C" ++ nl ++ lit "2. D" ++ nl)).
Proof.
  apply (toggle_answer_renders_children abcd_services (PStr "t1")
           (listing abcd_children)
           (block_of "c1" "paragraph" (lit "A"))
           (block_of "c2" "bulleted_list_item" (lit "B"))
           (block_of "c3" "numbered_list_item" (lit "C"))
           (block_of "c4" "numbered_list_item" (lit "D"))
           (lit "A") (lit "B") (lit "C") (lit "D"));
    vm_compute; reflexivity.
Defined.

Lemma toggle_loop_app st l1 l2 :
  Notion.toggle_loop st (l1 ++ l2) =
  (let? st' := Notion.toggle_loop st l1 in Notion.toggle_loop st' l2).
Proof.
  revert st. induction l1 as [|b l1 IH]; intros st; [reflexivity|].
  cbn [app Notion.toggle_loop].
  destruct (Notion.toggle_step st b) as [e|st']; [reflexivity|].
  cbn [and_then]. apply IH.
Qed.

Lemma and_then_Return {A B} (o : outcome A) (k : A -> outcome B) b :
  and_then o k = Return b -> exists a, o = Return a /\ k a = Return b.
Proof. destruct o as [e|a]; [discriminate|]. intros H. now exists a. Qed.

(** Whatever the type of a block, the walk remembers it as the previous
    type. *)
Lemma toggle_step_type st block st' :
  Notion.toggle_step st block = Return st' ->
  getitem block "type" = Return (Notion.previous_type st').
Proof.
  unfold Notion.toggle_step.
  intros (ty & Hty & (st1 & _ & (ty' & Hty' & H)%and_then_Return)%and_then_Return)%and_then_Return.
  injection H as <-. exact Hty'.
Qed.

Lemma join_excerpts_extends acc excerpts r :
  Notion.join_excerpts acc excerpts = Return r -> exists txt, r = acc ++ txt.
Proof.
  revert acc. induction excerpts as [|x rest IH]; intros acc.
  - intros [= <-]. exists []. now rewrite app_nil_r.
  - cbn [Notion.join_excerpts].
    intros ([] & _ & H)%and_then_Return.
    + apply and_then_Return in H as (text & _ & H).
      apply and_then_Return in H as (content & _ & H).
      apply and_then_Return in H as (acc' & Hacc & H).
      destruct content; try discriminate. injection Hacc as <-.
      apply IH in H as [txt ->]. exists (s ++ txt). now rewrite app_assoc.
    + now apply IH.
Qed.

Lemma eq_str_true v s : eq_str v s = true -> v = PStr s.
Proof.
  destruct v; try discriminate. cbn [eq_str].
  now intros ->%bool_decide_eq_true.
Qed.

(** A numbered item leaves behind the counter it was rendered with. *)
Lemma toggle_step_numbered_trace st block st' :
  Notion.toggle_step st block = Return st' ->
  is_numbered block = true ->
  exists txt,
    Notion.answer st' =
    Notion.answer st ++ (str_int (Notion.number st') ++ lit ". " ++ txt) ++ nl.
Proof.
  unfold is_numbered, Notion.toggle_step. intros H Hn.
  apply and_then_Return in H as (ty & Hty & H). rewrite Hty in Hn.
  apply eq_str_true in Hn as ->.
  apply and_then_Return in H as (st1 & H & H').
  apply and_then_Return in H' as (ty' & _ & [= <-]).
  cbn [Notion.answer Notion.number].
  replace (eq_str (PStr "numbered_list_item") "paragraph") with false in H by (now vm_compute).
  replace (eq_str (PStr "numbered_list_item") "bulleted_list_item") with false in H by (now vm_compute).
  replace (eq_str (PStr "numbered_list_item") "numbered_list_item") with true in H by (now vm_compute).
  apply and_then_Return in H as (data & _ & H).
  apply and_then_Return in H as (runs & _ & H).
  apply and_then_Return in H as (full & H & [= <-]).
  unfold Notion.join_runs in H. apply and_then_Return in H as (xs & _ & H).
  apply join_excerpts_extends in H as [txt ->].
  exists txt. cbn [Notion.answer Notion.number].
  now rewrite <- (app_assoc (str_int _) (lit ". ") txt).
Qed.

Lemma toggle_loop_snoc st pre block st' :
  Notion.toggle_loop st (pre ++ [block]) = Return st' ->
  exists st1, Notion.toggle_loop st pre = Return st1 /\
              Notion.toggle_step st1 block = Return st'.
Proof.
  rewrite toggle_loop_app. intros (st1 & H1 & H)%and_then_Return.
  exists st1. split; [exact H1|]. cbn [Notion.toggle_loop] in H.
  now destruct (Notion.toggle_step st1 block).
Qed.

(** C2.  After the walk of the siblings [pre], a numbered item gets the
    counter 1 when there is no previous sibling or the previous sibling,
    whatever its type, is not a numbered item, and the previous counter
    plus 1 when it is one; in that case the counter held by the walk is the
    one the previous numbered item was rendered with.  For the children
    numbered X, paragraph gap, numbered Y the answer is
    "1. X\ngap\n1. Y\n", and with a divider, which the walk does not
    render, in place of the paragraph it is "1. X\n1. Y\n". *)
Theorem numbered_counter_follows_previous_sibling pre cur s st0 :
  Notion.toggle_loop Notion.walk0 pre = Return st0 ->
  block_text "numbered_list_item" cur = Some s ->
  let n := match last pre with
           | Some prev => if is_numbered prev then (Notion.number st0 + 1)%Z else 1%Z
           | None => 1%Z
           end in
  Notion.toggle_loop Notion.walk0 (pre ++ [cur]) =
    Return (Notion.Walk (Notion.answer st0 ++ (str_int n ++ lit ". " ++ s) ++ nl)
                        n (PStr "numbered_list_item"))
  /\ (forall prev, last pre = Some prev -> is_numbered prev = true ->
      exists before st' txt,
        pre = before ++ [prev] /\
        Notion.toggle_loop Notion.walk0 before = Return st' /\
        Notion.answer st0 =
        Notion.answer st' ++ (str_int (Notion.number st0) ++ lit ". " ++ txt) ++ nl)
  /\ Notion.toggle_answer (listing xgy_children) =
     Return (lit "1. X" ++ nl ++ lit "gap" ++ nl ++ lit "1. Y" ++ nl)
  /\ Notion.toggle_answer (listing xdy_children) =
     Return (lit "1. X" ++ nl ++ lit "1. Y" ++ nl).
Proof.
  intros Hpre Hcur n. split; [|split].
  - rewrite toggle_loop_app, Hpre. cbn [and_then Notion.toggle_loop].
    rewrite (toggle_step_numbered _ _ _ Hcur). cbn [and_then].
    assert (next_number st0 = n) as ->; [|reflexivity].
    unfold next_number, n.
    destruct (last pre) as [prev|] eqn:Hlast.
    + apply last_Some in Hlast as [before ->].
      apply toggle_loop_snoc in Hpre as (st1 & _ & Hstep).
      apply toggle_step_type in Hstep. unfold is_numbered. now rewrite Hstep.
    + apply last_None in Hlast as ->. now injection Hpre as <-.
  - intros prev Hlast Hnum. apply last_Some in Hlast as [before ->].
    apply toggle_loop_snoc in Hpre as (st1 & Hbefore & Hstep).
    destruct (toggle_step_numbered_trace _ _ _ Hstep Hnum) as [txt Htxt].
    now exists before, st1, txt.
  - split; vm_compute; reflexivity.
Qed.

Lemma numbered_counter_follows_previous_sibling_witness :
  Notion.toggle_loop Notion.walk0 xgy_children =
  Return (Notion.Walk (lit "1. X" ++ nl ++ lit "gap" ++ nl ++ lit "1. Y" ++ nl)
                      1 (PStr "numbered_list_item")).
Proof.
  apply (numbered_counter_follows_previous_sibling
           [block_of "c1" "numbered_list_item" (lit "X");
            block_of "c2" "paragraph" (lit "gap")]
           (block_of "c3" "numbered_list_item" (lit "Y")) (lit "Y")
           (Notion.Walk (lit "1. X" ++ nl ++ lit "gap" ++ nl) 1 (PStr "paragraph")));
    vm_compute; reflexivity.
Defined.

(** *** Trimming *)

Lemma lstrip_idem s : lstrip (lstrip s) = lstrip s.
Proof.
  induction s as [|c s IH]; [reflexivity|]. cbn [lstrip].
  destruct (is_space c) eqn:Hc; [exact IH|]. cbn [lstrip]. now rewrite Hc.
Qed.

Lemma lstrip_cons_keep c s : is_space c = false -> lstrip (c :: s) = c :: s.
Proof. intros H. cbn [lstrip]. now rewrite H. Qed.

(** What [lstrip] returns is empty or starts with a non-space. *)
Lemma lstrip_head s :
  lstrip s = [] \/ exists c t, lstrip s = c :: t /\ is_space c = false.
Proof.
  induction s as [|c s IH]; [now left|]. cbn [lstrip].
  destruct (is_space c) eqn:Hc; [exact IH|]. right. now exists c, s.
Qed.

(** [lstrip] returns a suffix of its argument. *)
Lemma lstrip_suffix s : exists p, s = p ++ lstrip s.
Proof.
  induction s as [|c s [p IH]]; [now exists []|]. cbn [lstrip].
  destruct (is_space c); [|now exists []].
  exists (c :: p). cbn [app]. now rewrite <- IH.
Qed.

Lemma lstrip_app_keep s t :
  lstrip s <> [] -> lstrip (s ++ t) = lstrip s ++ t.
Proof.
  induction s as [|c s IH]; [easy|]. cbn [lstrip app].
  destruct (is_space c); [exact IH|reflexivity].
Qed.

Lemma lstrip_app_spaces s t :
  lstrip s = [] -> lstrip (s ++ t) = lstrip t.
Proof.
  induction s as [|c s IH]; [reflexivity|]. cbn [lstrip app].
  destruct (is_space c); [exact IH|discriminate].
Qed.

Lemma rstrip_snoc_space s c : is_space c = true -> rstrip (s ++ [c]) = rstrip s.
Proof.
  intros Hc. unfold rstrip. rewrite rev_app_distr. cbn [rev app lstrip].
  now rewrite Hc.
Qed.

Lemma rstrip_nil : rstrip [] = [].
Proof. reflexivity. Qed.

(** The line break the walker appends does not survive trimming. *)
Lemma strip_line s : strip (s ++ nl) = strip s.
Proof.
  unfold strip. destruct (lstrip s) as [|c t] eqn:Hs.
  - rewrite lstrip_app_spaces by exact Hs. reflexivity.
  - rewrite lstrip_app_keep by (rewrite Hs; discriminate). rewrite Hs.
    now apply rstrip_snoc_space.
Qed.

(** A trimmed string starts and ends with a non-space, so trimming it
    again changes nothing. *)
Lemma strip_idem s : strip (strip s) = strip s.
Proof.
  unfold strip, rstrip.
  set (u := lstrip s). set (r := lstrip (rev u)).
  assert (Hr : lstrip r = r) by apply lstrip_idem.
  assert (Hl : lstrip (rev r) = rev r).
  { destruct (lstrip_suffix (rev u)) as [p Hp]. fold r in Hp.
    destruct r as [|c r'] eqn:Er; [reflexivity|].
    destruct (lstrip_head s) as [Hu|(a & t & Hu & Ha)]; fold u in Hu.
    - rewrite Hu in Hp. cbn [rev] in Hp. now destruct p.
    - rewrite Hu in Hp. cbn [rev] in Hp.
      assert (Hlast : exists r0, c :: r' = r0 ++ [a]).
      { destruct (exists_last (l := c :: r')) as (r0 & z & Hz); [discriminate|].
        rewrite Hz, app_assoc in Hp. apply app_inj_tail in Hp as [_ ->].
        now exists r0. }
      destruct Hlast as [r0 ->]. rewrite rev_app_distr. cbn [rev app].
      now apply lstrip_cons_keep. }
  rewrite Hl, rev_involutive, Hr. reflexivity.
Qed.

Lemma nonempty_true s : nonempty s = true <-> s <> [].
Proof.
  unfold nonempty. rewrite negb_true_iff, bool_decide_eq_false. reflexivity.
Qed.

Lemma nonempty_false s : nonempty s = false <-> s = [].
Proof.
  unfold nonempty. rewrite negb_false_iff, bool_decide_eq_true. reflexivity.
Qed.

(** *** The walk over top-level blocks *)

Lemma add_log_nil w : add_log [] w = w.
Proof. destruct w. unfold add_log. cbn. now rewrite app_nil_r. Qed.

Lemma add_log_app l1 l2 w : add_log l2 (add_log l1 w) = add_log (l1 ++ l2) w.
Proof. unfold add_log. cbn. now rewrite app_assoc. Qed.

Lemma analyze_block_contribution svc block block_type st w :
  Notion.analyze_block svc block block_type st w =
  (c <~ contribution_of svc block block_type ;; contribute c st) w.
Proof.
  unfold Notion.analyze_block, contribution_of, Notion.get_toggle_answer,
    contribute, bind, lift.
  repeat
    match goal with
    | |- context [and_then ?o _] => destruct o as [?|?]; cbn [and_then]
    | |- context [if ?b then _ else _] => destruct b
    | |- _ => reflexivity
    end.
Qed.

Lemma contribute_run c st w :
  contribute c st w = (add_log (contribution_log c) w, Return (absorb c st)).
Proof.
  destruct c; cbn [contribute contribution_log absorb];
    [unfold ret; now rewrite add_log_nil | reflexivity | reflexivity].
Qed.

(** One turn of the loop of analyze_blocks. *)
Lemma analyze_loop_cons svc block rest st w :
  Notion.analyze_loop svc (block :: rest) st w =
  match get block "type" (PStr (lit "")) with
  | Raise e => (w, Raise e)
  | Return block_type =>
      match contribution_of svc block block_type with
      | Return c =>
          Notion.analyze_loop svc rest (absorb c st)
            (add_log (contribution_log c) w)
      | Raise e =>
          if lookup_error e
          then Notion.analyze_loop svc rest st (add_log [skip_warning svc block e] w)
          else (w, Raise e)
      end
  end.
Proof.
  cbn [Notion.analyze_loop]. unfold bind at 1. unfold lift at 1.
  destruct (get block "type" (PStr (lit ""))) as [e|block_type] eqn:Hty;
    [reflexivity|].
  unfold bind, try_except. rewrite analyze_block_contribution.
  unfold bind, lift.
  destruct (contribution_of svc block block_type) as [e|c].
  - unfold Notion.skip_block. destruct (lookup_error e); [|reflexivity].
    destruct block; try discriminate. unfold skip_warning. cbn [get].
    reflexivity.
  - now rewrite contribute_run.
Qed.

Lemma analyze_loop_log_only svc blocks st :
  log_only (Notion.analyze_loop svc blocks st).
Proof.
  revert st. induction blocks as [|block rest IH]; intros st.
  - exists [], (Return st). intros w. cbn. unfold ret. now rewrite add_log_nil.
  - destruct (get block "type" (PStr (lit ""))) as [e|ty] eqn:Hty.
    { exists [], (Raise e). intros w.
      now rewrite analyze_loop_cons, Hty, add_log_nil. }
    destruct (contribution_of svc block ty) as [e|c] eqn:Hc.
    + destruct (lookup_error e) eqn:He.
      * destruct (IH st) as (records & o & H).
        exists (skip_warning svc block e :: records), o. intros w.
        rewrite analyze_loop_cons, Hty, Hc, He, H, add_log_app. reflexivity.
      * exists [], (Raise e). intros w.
        now rewrite analyze_loop_cons, Hty, Hc, He, add_log_nil.
    + destruct (IH (absorb c st)) as (records & o & H).
      exists (contribution_log c ++ records), o. intros w.
      rewrite analyze_loop_cons, Hty, Hc, H, add_log_app. reflexivity.
Qed.

Lemma analyze_loop_app svc l1 l2 st w :
  Notion.analyze_loop svc (l1 ++ l2) st w =
  (st' <- Notion.analyze_loop svc l1 st ;; Notion.analyze_loop svc l2 st') w.
Proof.
  revert st w. induction l1 as [|block rest IH]; intros st w; [reflexivity|].
  cbn [app]. unfold bind. rewrite !analyze_loop_cons.
  destruct (get block "type" (PStr (lit ""))) as [e|ty]; [reflexivity|].
  destruct (contribution_of svc block ty) as [e|c].
  - destruct (lookup_error e); [|reflexivity]. rewrite IH. reflexivity.
  - rewrite IH. reflexivity.
Qed.

(** The exceptions the walk catches never leave it. *)
Lemma analyze_loop_no_lookup_error svc blocks st w e :
  (Notion.analyze_loop svc blocks st w).2 = Raise e -> lookup_error e = false.
Proof.
  revert st w. induction blocks as [|block rest IH]; intros st w; [discriminate|].
  rewrite analyze_loop_cons.
  destruct (get block "type" (PStr (lit ""))) as [e'|ty] eqn:Hty.
  { cbn. intros [= <-]. destruct block; try discriminate; cbn in Hty.
    all: now injection Hty as <-. }
  destruct (contribution_of svc block ty) as [e'|c].
  - destruct (lookup_error e') eqn:He'; [apply IH|].
    cbn. now intros [= <-].
  - apply IH.
Qed.

Lemma analyze_blocks_list svc blocks w :
  Notion.analyze_blocks svc (PList blocks) w =
  Notion.analyze_loop svc blocks (∅, ∅) w.
Proof. reflexivity. Qed.

(** [malformed] in terms of the embedded code: the body of the [try]
    raises one of the three exceptions of the [except] clause. *)
Lemma malformed_raises svc block st w :
  malformed svc block = true <->
  exists block_type e,
    get block "type" (PStr (lit "")) = Return block_type /\
    (Notion.analyze_block svc block block_type st w).2 = Raise e /\
    lookup_error e = true.
Proof.
  unfold malformed. split.
  - destruct (get block "type" (PStr (lit ""))) as [|ty]; [discriminate|].
    destruct (contribution_of svc block ty) as [e|] eqn:Hc; [|discriminate].
    intros He. exists ty, e. repeat split; [|exact He].
    rewrite analyze_block_contribution. unfold bind, lift. now rewrite Hc.
  - intros (ty & e & -> & Hraise & He).
    rewrite analyze_block_contribution in Hraise. unfold bind, lift in Hraise.
    destruct (contribution_of svc block ty) as [e'|c].
    + cbn [snd] in Hraise. now injection Hraise as ->.
    + now rewrite contribute_run in Hraise.
Qed.

(** At a malformed block the walk logs one warning, keeps what it has
    found and goes on with the next sibling. *)
Lemma analyze_loop_malformed svc block rest st w :
  malformed svc block = true ->
  exists e, lookup_error e = true /\
    Notion.analyze_loop svc (block :: rest) st w =
    Notion.analyze_loop svc rest st (add_log [skip_warning svc block e] w).
Proof.
  unfold malformed. intros H. rewrite analyze_loop_cons.
  destruct (get block "type" (PStr (lit ""))) as [|ty]; [discriminate|].
  destruct (contribution_of svc block ty) as [e|]; [|discriminate].
  exists e. now rewrite H.
Qed.

Lemma analyze_loop_nothing svc block ty rest st w :
  get block "type" (PStr (lit "")) = Return ty ->
  contribution_of svc block ty = Return Nothing ->
  Notion.analyze_loop svc (block :: rest) st w =
  Notion.analyze_loop svc rest st w.
Proof.
  intros Hty Hc. rewrite analyze_loop_cons, Hty, Hc.
  cbn [contribution_log absorb]. now rewrite add_log_nil.
Qed.

Lemma missing_text_nothing payload :
  missing_text payload = true ->
  exists rich_text,
    get (default (PDict ∅) payload) "rich_text" (PList []) = Return rich_text /\
    Notion.first_text rich_text = Return false.
Proof.
  destruct payload as [[| | | | |data]|]; try discriminate;
    cbn [missing_text default from_option id get].
  - destruct (data !! lit "rich_text") as [[| | | |[|[| | | | |run] ?]|]|] eqn:Hrt;
      try discriminate; cbn [default from_option id].
    + destruct (run !! lit "text") eqn:Hrun; [discriminate|]. intros _.
      eexists; split; [reflexivity|].
      unfold Notion.first_text. cbn [truthy length].
      rewrite bool_decide_eq_false_2 by discriminate.
      cbn [negb getindex lookup list_lookup get and_then].
      rewrite Hrun. reflexivity.
    + intros _. eexists; split; reflexivity.
  - intros _. eexists; split; [reflexivity|]. now vm_compute.
Qed.

(** A block with a missing field that the walk reads with a default
    contributes nothing, and nothing is raised. *)
Lemma defaulted_nothing svc block :
  defaulted block = true ->
  exists ty, get block "type" (PStr (lit "")) = Return ty /\
             contribution_of svc block ty = Return Nothing.
Proof.
  destruct block as [| | | | |d]; try discriminate. cbn [defaulted get].
  destruct (d !! lit "type") as [[| | |ty| |]|] eqn:Hty; try discriminate;
    cbn [default from_option id].
  - intros H. exists (PStr ty). split; [reflexivity|].
    unfold contribution_of. cbn [contains and_then].
    destruct (substring_of "heading" ty).
    + cbn [get_key and_then].
      destruct (missing_text_nothing _ H) as (rich & Hget & Hfirst).
      rewrite Hget. cbn [and_then]. rewrite Hfirst. reflexivity.
    + case_bool_decide as Heq; [subst ty|discriminate].
      replace (eq_str (PStr "toggle") "toggle") with true by (now vm_compute).
      cbn [get and_then].
      destruct (missing_text_nothing _ H) as (rich & Hget & Hfirst).
      rewrite Hget. cbn [and_then]. rewrite Hfirst. reflexivity.
  - intros _. exists (PStr (lit "")). split; [reflexivity|]. now vm_compute.
Qed.

(** C5, as amended.  A top-level block whose processing raises KeyError,
    IndexError or TypeError is skipped with one warning: the walk keeps
    the topics and content found so far and goes on with the remaining
    siblings, so that it returns what the walk of the sequence without that
    block returns.  A heading or toggle block lacking a field that is read
    with a default is passed over with no warning at all.  No KeyError,
    IndexError or TypeError leaves the walk. *)
Theorem malformed_block_is_skipped svc block pre post st w :
  malformed svc block = true ->
  (exists e, lookup_error e = true /\
     Notion.analyze_loop svc (block :: post) st w =
     Notion.analyze_loop svc post st (add_log [skip_warning svc block e] w))
  /\ (Notion.analyze_blocks svc (PList (pre ++ block :: post)) w).2 =
     (Notion.analyze_blocks svc (PList (pre ++ post)) w).2
  /\ (forall other, defaulted other = true ->
      Notion.analyze_loop svc (other :: post) st w =
      Notion.analyze_loop svc post st w)
  /\ (forall blocks e,
      (Notion.analyze_blocks svc (PList blocks) w).2 = Raise e ->
      lookup_error e = false).
Proof.
  intros Hbad. split; [|split; [|split]].
  - now apply analyze_loop_malformed.
  - rewrite !analyze_blocks_list, !analyze_loop_app. unfold bind.
    destruct (Notion.analyze_loop svc pre (∅, ∅) w) as [w1 [e|st1]];
      [reflexivity|].
    destruct (analyze_loop_malformed svc block post st1 w1 Hbad) as (e & _ & ->).
    destruct (analyze_loop_log_only svc post st1) as (records & o & H).
    now rewrite !H.
  - intros other (ty & Hty & Hc)%(defaulted_nothing svc).
    now apply (analyze_loop_nothing svc other ty).
  - intros blocks e. rewrite analyze_blocks_list.
    apply analyze_loop_no_lookup_error.
Qed.

Lemma malformed_block_is_skipped_witness :
  malformed topic1_services broken_heading = true /\
  (Notion.analyze_blocks topic1_services
     (PList ([topic1_heading] ++ broken_heading :: [topic1_toggle])) world0).2 =
  (Notion.analyze_blocks topic1_services
     (PList ([topic1_heading] ++ [topic1_toggle])) world0).2.
Proof.
  split; [now vm_compute|].
  apply (malformed_block_is_skipped topic1_services broken_heading
           [topic1_heading] [topic1_toggle] (∅, ∅) world0).
  now vm_compute.
Defined.

(** C5, counterexample.  A toggle that lacks its payload is a block with a
    nested field missing, and the walk passes over it without any
    warning. *)
Lemma bare_toggle_skipped_without_warning :
  defaulted bare_toggle = true /\
  malformed topic1_services bare_toggle = false /\
  Notion.analyze_blocks topic1_services (PList [bare_toggle; topic1_heading]) world0 =
    (add_log [(DEBUG, lit "Found heading: Topic1")] world0,
     Return ({[lit "Topic1"]}, ∅)) /\
  ~ (exists msg,
       In (WARNING, msg)
          (w_log (Notion.analyze_blocks topic1_services
                    (PList [bare_toggle; topic1_heading]) world0).1)).
Proof.
  split; [now vm_compute|]. split; [now vm_compute|].
  assert (H : Notion.analyze_blocks topic1_services
                (PList [bare_toggle; topic1_heading]) world0 =
              (add_log [(DEBUG, lit "Found heading: Topic1")] world0,
               Return ({[lit "Topic1"]}, ∅))) by now vm_compute.
  split; [exact H|]. rewrite H. cbn. intros [msg [[=]|[]]].
Qed.

(** *** Nothing blank is kept *)

Lemma contribution_nonblank svc block ty c :
  contribution_of svc block ty = Return c ->
  match c with
  | Nothing => True
  | Topic h => strip h <> []
  | Answer q a => strip q <> [] /\ strip a <> []
  end.
Proof.
  unfold contribution_of.
  repeat
    match goal with
    | |- and_then ?o _ = _ -> _ => destruct o as [?|?]; cbn [and_then]
    | |- (if nonempty ?s then _ else _) = _ -> _ =>
        let H := fresh "H" in destruct (nonempty s) eqn:H;
        [apply nonempty_true in H|]
    | |- (if ?b then _ else _) = _ -> _ => destruct b
    | |- Raise _ = Return _ -> _ => discriminate
    | |- Return _ = Return _ -> _ => intros [= <-]
    end; auto.
Qed.

Lemma absorb_clean c st :
  match c with
  | Nothing => True
  | Topic h => strip h <> []
  | Answer q a => strip q <> [] /\ strip a <> []
  end ->
  clean st -> clean (absorb c st).
Proof.
  intros Hc [Ht Hq]. destruct c as [|h|q a]; cbn [absorb]; [now split| |].
  - split; [|exact Hq]. cbn [fst]. intros t [->%elem_of_singleton|Hin]%elem_of_union.
    + now rewrite strip_idem.
    + now apply Ht.
  - split; [exact Ht|]. cbn [snd]. intros q' a'.
    destruct (decide (strip q = q')) as [<-|Hne].
    + rewrite lookup_insert_eq. intros [= <-]. now rewrite !strip_idem.
    + rewrite lookup_insert_ne by exact Hne. apply Hq.
Qed.

Lemma analyze_loop_clean svc blocks st w st' :
  clean st ->
  (Notion.analyze_loop svc blocks st w).2 = Return st' -> clean st'.
Proof.
  revert st w. induction blocks as [|block rest IH]; intros st w Hst.
  - now intros [= <-].
  - rewrite analyze_loop_cons.
    destruct (get block "type" (PStr (lit ""))) as [e|ty]; [discriminate|].
    destruct (contribution_of svc block ty) as [e|c] eqn:Hc.
    + destruct (lookup_error e); [now apply IH|discriminate].
    + apply IH. apply absorb_clean; [|exact Hst].
      now apply (contribution_nonblank svc block ty).
Qed.

Lemma lookup_size_nonzero (m : gmap pstr pyval) k v :
  m !! k = Some v -> size m <> 0.
Proof.
  intros H Hsize. apply map_size_empty_iff in Hsize. subst m.
  now rewrite lookup_empty in H.
Qed.

(** What the walk reads from a block whose first run has content [s]. *)
Lemma first_run_read ty block s :
  first_run ty block = Some s ->
  exists rich_text,
    (let? data := get_key block (PStr ty) (PDict ∅) in
     get data "rich_text" (PList [])) = Return rich_text /\
    Notion.first_text rich_text = Return true /\
    Notion.first_content rich_text = Return (PStr s).
Proof.
  destruct block as [| | | | |d]; try discriminate. cbn [first_run].
  destruct (d !! ty) as [[| | | | |data]|] eqn:Hd; try discriminate.
  destruct (data !! lit "rich_text") as [[| | | |[|[| | | | |run] rest]|]|] eqn:Hrt;
    try discriminate.
  destruct (run !! lit "text") as [[| | | | |t]|] eqn:Hrun; try discriminate.
  destruct (t !! lit "content") as [[| | |c| |]|] eqn:Hc; try discriminate.
  intros [= <-]. exists (PList (PDict run :: rest)). repeat split.
  - cbn [get_key and_then]. rewrite Hd. cbn [default from_option id get].
    now rewrite Hrt.
  - unfold Notion.first_text. cbn [truthy length].
    rewrite bool_decide_eq_false_2 by discriminate.
    cbn [negb getindex lookup list_lookup get and_then]. rewrite Hrun.
    cbn [default from_option id truthy].
    now rewrite bool_decide_eq_false_2 by (now apply (lookup_size_nonzero _ _ _ Hc)).
  - unfold Notion.first_content.
    cbn [getindex lookup list_lookup and_then getitem]. rewrite Hrun.
    cbn [and_then getitem]. now rewrite Hc.
Qed.

Lemma get_key_str block ty dflt :
  get_key block (PStr ty) dflt = get block ty dflt.
Proof. now destruct block. Qed.

Lemma contribution_heading svc block ty h :
  substring_of "heading" ty = true ->
  first_run ty block = Some h ->
  contribution_of svc block (PStr ty) =
  Return (if nonempty (strip h) then Topic h else Nothing).
Proof.
  intros Hty (rich & Hget & Hfirst & Hcontent)%first_run_read.
  unfold contribution_of. cbn [contains and_then]. rewrite Hty.
  apply and_then_Return in Hget as (data & Hdata & Hrich).
  rewrite Hdata. cbn [and_then]. rewrite Hrich. cbn [and_then].
  rewrite Hfirst. cbn [and_then]. rewrite Hcontent. cbn [and_then str_receiver].
  now destruct (nonempty (strip h)).
Qed.

Lemma contribution_toggle svc block q :
  first_run "toggle" block = Some q ->
  contribution_of svc block (PStr "toggle") =
  if nonempty (strip q) then
    let? block_id := getitem block "id" in
    let? toggle_children := notion_children svc block_id in
    let? answer := Notion.toggle_answer toggle_children in
    if nonempty (strip answer) then Return (Answer q answer) else Return Nothing
  else Return Nothing.
Proof.
  intros (rich & Hget & Hfirst & Hcontent)%first_run_read.
  unfold contribution_of.
  replace (contains "heading" (PStr "toggle")) with (Return false : outcome bool)
    by (now vm_compute).
  cbn [and_then].
  replace (eq_str (PStr "toggle") "toggle") with true by (now vm_compute).
  rewrite get_key_str in Hget.
  apply and_then_Return in Hget as (data & Hdata & Hrich).
  rewrite Hdata. cbn [and_then]. rewrite Hrich. cbn [and_then].
  rewrite Hfirst. cbn [and_then]. rewrite Hcontent. cbn [and_then str_receiver].
  reflexivity.
Qed.

(** C9.  Whatever the blocks, every topic the walk returns and every
    question (and answer) of the mapping it returns is non-empty after
    trimming.  A heading whose first text run is blank contributes
    nothing, and so does a toggle whose question, or whose reconstructed
    answer, trims to the empty string. *)
Theorem walk_keeps_trimmed_nonempty svc blocks w topics content :
  (Notion.analyze_blocks svc blocks w).2 = Return (topics, content) ->
  (forall t, t ∈ topics -> strip t <> [])
  /\ (forall q a, content !! q = Some a -> strip q <> [] /\ strip a <> [])
  /\ (forall block ty h rest st w',
        get block "type" (PStr (lit "")) = Return (PStr ty) ->
        substring_of "heading" ty = true ->
        first_run ty block = Some h -> strip h = [] ->
        Notion.analyze_loop svc (block :: rest) st w' =
        Notion.analyze_loop svc rest st w')
  /\ (forall block q rest st w',
        get block "type" (PStr (lit "")) = Return (PStr "toggle") ->
        first_run "toggle" block = Some q ->
        (strip q = [] \/
         exists id r a, getitem block "id" = Return id /\
                        notion_children svc id = Return r /\
                        Notion.toggle_answer r = Return a /\ strip a = []) ->
        Notion.analyze_loop svc (block :: rest) st w' =
        Notion.analyze_loop svc rest st w').
Proof.
  intros H. 
  assert (Hclean : clean (topics, content)).
  { unfold Notion.analyze_blocks, bind, lift in H.
    destruct (iterate blocks) as [e|sequence]; [discriminate|].
    apply (analyze_loop_clean svc sequence (∅, ∅) w); [|exact H].
    split; cbn [fst snd]; [intros t Ht; now apply not_elem_of_empty in Ht|].
    intros q a Hq. now rewrite lookup_empty in Hq. }
  destruct Hclean as [Ht Hq]. split; [exact Ht|]. split; [exact Hq|]. split.
  - intros block ty h rest st w' Hty Hhead Hrun Hblank.
    apply (analyze_loop_nothing svc block (PStr ty)); [exact Hty|].
    rewrite (contribution_heading svc block ty h Hhead Hrun).
    now apply nonempty_false in Hblank as ->.
  - intros block q rest st w' Hty Hrun Hblank.
    apply (analyze_loop_nothing svc block (PStr "toggle")); [exact Hty|].
    rewrite (contribution_toggle svc block q Hrun).
    destruct Hblank as [Hblank|(id & r & a & Hid & Hr & Ha & Hblank)].
    + now apply nonempty_false in Hblank as ->.
    + destruct (nonempty (strip q)); [|reflexivity].
      rewrite Hid. cbn [and_then]. rewrite Hr. cbn [and_then].
      rewrite Ha. cbn [and_then]. now apply nonempty_false in Hblank as ->.
Qed.

Lemma walk_keeps_trimmed_nonempty_witness :
  (forall t, t ∈ ({[lit "Topic1"]} : gset pstr) -> strip t <> []) /\
  (forall q a, ({[lit "What is X?" := lit "X is Y."]} : gmap pstr pstr) !! q = Some a ->
               strip q <> [] /\ strip a <> []).
Proof.
  assert (H : (Notion.analyze_blocks topic1_services
                 (PList [topic1_heading; topic1_toggle]) world0).2 =
              Return ({[lit "Topic1"]}, {[lit "What is X?" := lit "X is Y."]}))
    by now vm_compute.
  destruct (walk_keeps_trimmed_nonempty _ _ _ _ _ H) as (Ht & Hq & _).
  split; [exact Ht|exact Hq].
Defined.

(** *** The stored answer *)

(** C3, as amended.  For a toggle with question [q] whose only child is a
    paragraph with text [a], the walk stores the trimmed answer under the
    trimmed question: the line break that ends the reconstructed text is
    removed.  For "What is X?" and "X is Y." the mapping is
    {"What is X?": "X is Y."}. *)
Theorem toggle_answer_is_stored_trimmed svc toggle id response child q a st w :
  get toggle "type" (PStr (lit "")) = Return (PStr "toggle") ->
  first_run "toggle" toggle = Some q ->
  strip q <> [] ->
  getitem toggle "id" = Return id ->
  notion_children svc id = Return response ->
  getitem response "results" = Return (PList [child]) ->
  block_text "paragraph" child = Some a ->
  strip a <> [] ->
  (Notion.analyze_loop svc [toggle] st w).2 =
    Return (st.1, <[strip q := strip a]> st.2)
  /\ (Notion.analyze_blocks svc (PList [toggle]) w).2 =
    Return (∅, {[strip q := strip a]}).
Proof.
  intros Hty Hq Hqn Hid Hsvc Hres Hchild Han.
  assert (Hc : contribution_of svc toggle (PStr "toggle") =
               Return (Answer q (a ++ nl))).
  { rewrite (contribution_toggle svc toggle q Hq).
    apply nonempty_true in Hqn as ->.
    rewrite Hid. cbn [and_then]. rewrite Hsvc. cbn [and_then].
    unfold Notion.toggle_answer. rewrite Hres.
    cbn [and_then iterate Notion.toggle_loop].
    rewrite (toggle_step_paragraph _ _ _ Hchild).
    cbn [and_then Notion.answer Notion.walk0 lit map String.list_ascii_of_string app].
    rewrite strip_line. now apply nonempty_true in Han as ->. }
  assert (Hloop : forall st0,
             (Notion.analyze_loop svc [toggle] st0 w).2 =
             Return (st0.1, <[strip q := strip a]> st0.2)).
  { intros st0. rewrite analyze_loop_cons, Hty, Hc.
    cbn [absorb Notion.analyze_loop]. unfold ret. cbn [snd].
    now rewrite strip_line. }
  split; [apply Hloop|].
  rewrite analyze_blocks_list, Hloop. cbn [fst snd].
  now rewrite insert_empty.
Qed.

Lemma toggle_answer_is_stored_trimmed_witness :
  (Notion.analyze_blocks topic1_services (PList [topic1_toggle]) world0).2 =
  Return (∅, {[lit "What is X?" := lit "X is Y."]}).
Proof.
  apply (toggle_answer_is_stored_trimmed topic1_services topic1_toggle (PStr "t1")
           (listing [topic1_answer]) topic1_answer
           (lit "What is X?") (lit "X is Y.") (∅, ∅) world0);
    now vm_compute.
Defined.

(** C3, counterexample.  On the page of the scenario the walk stores
    "X is Y." and not "X is Y." followed by a line break. *)
Lemma stored_answer_has_no_line_break :
  (Notion.analyze_blocks topic1_services
     (PList [topic1_heading; topic1_toggle]) world0).2 =
    Return ({[lit "Topic1"]}, {[lit "What is X?" := lit "X is Y."]})
  /\ ~ (exists topics,
          (Notion.analyze_blocks topic1_services
             (PList [topic1_heading; topic1_toggle]) world0).2 =
          Return (topics, {[lit "What is X?" := lit "X is Y." ++ nl]})).
Proof.
  assert (H : (Notion.analyze_blocks topic1_services
                 (PList [topic1_heading; topic1_toggle]) world0).2 =
              Return ({[lit "Topic1"]}, {[lit "What is X?" := lit "X is Y."]}))
    by now vm_compute.
  split; [exact H|]. rewrite H. intros [topics Heq].
  assert (Hm : ({[lit "What is X?" := lit "X is Y."]} : gmap pstr pstr) =
               {[lit "What is X?" := lit "X is Y." ++ nl]}) by congruence.
  apply (f_equal (fun m : gmap pstr pstr => m !! lit "What is X?")) in Hm.
  rewrite !lookup_singleton_eq in Hm. discriminate Hm.
Qed.

(** *** Extraction as a tool *)

Lemma status_extraction_error message o :
  o = Return (Server.extraction_error message) -> status_of o = Some (lit "error").
Proof. intros ->. now vm_compute. Qed.

Lemma fetch_page_content_both svc page_id w topics content :
  (Notion.fetch_page_content svc page_id w).2 = Return (Some (topics, content)) ->
  topics <> ∅ /\ content <> ∅.
Proof.
  unfold Notion.fetch_page_content, bind, lift, ret.
  destruct (notion_children svc (PStr page_id)) as [e|response]; [discriminate|].
  destruct (getitem response "results") as [e|blocks]; [discriminate|].
  destruct (Notion.analyze_blocks svc blocks w) as [w1 [e|[t c]]]; [discriminate|].
  cbn [fst snd].
  case_bool_decide as Ht; [|discriminate].
  case_bool_decide as Hc; [|discriminate].
  cbn [andb snd]. now intros [= <- <-].
Qed.

Lemma fetch_page_content_none svc page_id w response blocks topics content :
  notion_children svc (PStr page_id) = Return response ->
  getitem response "results" = Return blocks ->
  (Notion.analyze_blocks svc blocks w).2 = Return (topics, content) ->
  topics = ∅ \/ content = ∅ ->
  (Notion.fetch_page_content svc page_id w).2 = Return None.
Proof.
  intros Hr Hb Ha Hempty.
  unfold Notion.fetch_page_content, bind, lift, ret. rewrite Hr, Hb.
  destruct (Notion.analyze_blocks svc blocks w) as [w1 o]. cbn [snd] in Ha.
  subst o. cbn [fst snd].
  destruct Hempty as [-> | ->].
  - now rewrite bool_decide_eq_false_2 by (intros H; now apply H).
  - rewrite (bool_decide_eq_false_2 (∅ ≠ ∅)) by (intros H; now apply H).
    now rewrite andb_false_r.
Qed.

(** C10.  extract_page_content answers "success" only when
    fetch_page_content returned a pair of a non-empty topic set and a
    non-empty mapping.  fetch_page_content returns the pair only when both
    are non-empty and None otherwise, and on None the tool answers
    "error". *)
Theorem extract_success_needs_topics_and_content svc page_id w :
  status_of (Server.extract_page_content svc page_id w).2 = Some (lit "success") ->
  (exists s topics content,
      page_id = PStr s /\
      (Notion.fetch_page_content svc (strip s) w).2 =
        Return (Some (topics, content)) /\
      topics <> ∅ /\ content <> ∅)
  /\ (forall id w' topics content,
        (Notion.fetch_page_content svc id w').2 = Return (Some (topics, content)) ->
        topics <> ∅ /\ content <> ∅)
  /\ (forall id w' response blocks topics content,
        notion_children svc (PStr id) = Return response ->
        getitem response "results" = Return blocks ->
        (Notion.analyze_blocks svc blocks w').2 = Return (topics, content) ->
        topics = ∅ \/ content = ∅ ->
        (Notion.fetch_page_content svc id w').2 = Return None)
  /\ (forall s w',
        strip s <> [] ->
        (Notion.fetch_page_content svc (strip s) w').2 = Return None ->
        status_of (Server.extract_page_content svc (PStr s) w').2 = Some (lit "error")).
Proof.
  intros H. split; [|split; [|split]].
  - unfold Server.extract_page_content, bind, lift, try_except in H.
    destruct (blank page_id) as [e|[]]; [discriminate| |].
    { now rewrite (status_extraction_error (lit "Page ID cannot be empty.")) in H. }
    destruct page_id as [| | |s| |];
      try (cbn [str_receiver] in H;
           now erewrite status_extraction_error in H by reflexivity).
    cbn [str_receiver] in H.
    destruct (Notion.fetch_page_content svc (strip s) w) as [w1 [e|[[t c]|]]] eqn:Hf;
      try (now erewrite status_extraction_error in H by reflexivity).
    destruct (fetch_page_content_both svc (strip s) w t c) as [Ht Hc];
      [now rewrite Hf|].
    exists s, t, c. now rewrite Hf.
  - apply fetch_page_content_both.
  - apply fetch_page_content_none.
  - intros s w' Hs Hf.
    unfold Server.extract_page_content, bind, lift, try_except.
    unfold blank. destruct (truthy (PStr s)) eqn:Htruthy.
    + cbn [str_receiver and_then]. apply nonempty_true in Hs as ->.
      cbn [negb]. destruct (Notion.fetch_page_content svc (strip s) w') as [w1 o].
      cbn [snd] in Hf. subst o.
      now erewrite status_extraction_error by reflexivity.
    + now erewrite status_extraction_error by reflexivity.
Qed.

Lemma extract_success_needs_topics_and_content_witness :
  status_of (Server.extract_page_content topic1_services (PStr "page1") world0).2
    = Some (lit "success") /\
  status_of (Server.extract_page_content topic1_services (PStr "page2") world0).2
    = Some (lit "error").
Proof.
  assert (H : status_of (Server.extract_page_content topic1_services
                           (PStr "page1") world0).2 = Some (lit "success"))
    by now vm_compute.
  split; [exact H|].
  destruct (extract_success_needs_topics_and_content _ _ _ H) as (_ & _ & _ & Herr).
  apply (Herr (lit "page2") world0).
  - vm_compute. discriminate.
  - vm_compute. reflexivity.
Defined.

(** *** Publishing notes *)

Lemma add_log_calls records w : w_calls (add_log records w) = w_calls w.
Proof. reflexivity. Qed.

Lemma bind_Return {A B} (m : M A) (k : A -> M B) w w' a :
  m w = (w', Return a) -> bind m k w = k a w'.
Proof. unfold bind. now intros ->. Qed.

Lemma bind_Raise {A B} (m : M A) (k : A -> M B) w w' e :
  m w = (w', Raise e) -> bind m k w = (w', Raise e).
Proof. unfold bind. now intros ->. Qed.

Lemma all_in_dict fields d :
  Anki.all_in fields (PDict d) =
  Return (forallb (fun f => bool_decide (is_Some (d !! f))) fields).
Proof.
  induction fields as [|f rest IH]; [reflexivity|].
  cbn [Anki.all_in contains and_then forallb].
  destruct (bool_decide (is_Some (d !! f))); [exact IH|reflexivity].
Qed.

Lemma bad_fields_dict d v :
  d !! lit "fields" = Some v ->
  Anki.bad_fields (PDict d) =
  Return (negb match v with
               | PDict fields =>
                   bool_decide (is_Some (fields !! lit "Front"))
                   && bool_decide (is_Some (fields !! lit "Back"))
               | _ => false
               end).
Proof.
  intros H. unfold Anki.bad_fields. cbn [getitem]. rewrite H. cbn [and_then].
  destruct v as [| | | | |f]; try reflexivity.
  cbn [Anki.is_dict negb contains and_then].
  now destruct (bool_decide (is_Some (f !! lit "Front"))).
Qed.

Lemma is_Some_bool {A} (o : option A) :
  bool_decide (is_Some o) = match o with Some _ => true | None => false end.
Proof.
  destruct o; [now apply bool_decide_eq_true_2|].
  apply bool_decide_eq_false_2. now intros [? ?].
Qed.

(** One turn of the validation loop: a well-formed note is kept, any
    other note is dropped with a warning. *)
Lemma validate_cons note rest i acc w :
  exists records,
    Anki.validate i (note :: rest) acc w =
    Anki.validate (i + 1) rest
      (if well_formed_note note then acc ++ [note] else acc)
      (add_log records w).
Proof.
  cbn [Anki.validate].
  destruct note as [| | | | |d];
    try (cbn [Anki.is_dict negb well_formed_note]; unfold bind, log;
         eexists; reflexivity).
  cbn [Anki.is_dict negb well_formed_note].
  rewrite all_in_dict. unfold bind at 1. unfold lift at 1.
  cbn [forallb]. rewrite !is_Some_bool.
  destruct (d !! lit "deckName") as [?|]; cbn [andb negb];
    [|unfold bind, log; eexists; reflexivity].
  destruct (d !! lit "modelName") as [?|]; cbn [andb negb];
    [|unfold bind, log; eexists; reflexivity].
  destruct (d !! lit "fields") as [v|] eqn:Hv; cbn [andb negb];
    [|unfold bind, log; eexists; reflexivity].
  rewrite (bad_fields_dict d v Hv). unfold bind at 1. unfold lift at 1.
  destruct v as [| | | | |f]; cbn [negb];
    try (unfold bind, log; eexists; reflexivity).
  rewrite !is_Some_bool.
  destruct (f !! lit "Front") as [?|]; cbn [andb negb];
    [|unfold bind, log; eexists; reflexivity].
  destruct (f !! lit "Back") as [?|]; cbn [andb negb];
    [|unfold bind, log; eexists; reflexivity].
  exists []. now rewrite add_log_nil.
Qed.

(** The validation loop keeps the well-formed notes, in order, and only
    writes to the log. *)
Lemma validate_run notes i acc w :
  exists records,
    Anki.validate i notes acc w =
    (add_log records w, Return (acc ++ List.filter well_formed_note notes)).
Proof.
  revert i acc w. induction notes as [|note rest IH]; intros i acc w.
  - exists []. cbn. unfold ret. now rewrite add_log_nil, app_nil_r.
  - destruct (validate_cons note rest i acc w) as [r1 ->].
    destruct (IH (i + 1)%Z (if well_formed_note note then acc ++ [note] else acc)
                 (add_log r1 w)) as [r2 ->].
    exists (r1 ++ r2). rewrite add_log_app. cbn [List.filter].
    destruct (well_formed_note note); [now rewrite <- app_assoc|reflexivity].
Qed.

Lemma check_response_calls svc response w :
  w_calls (Anki.check_response svc response w).1 = w_calls w.
Proof.
  unfold Anki.check_response.
  destruct response as [| | | | |d]; try reflexivity.
  repeat (match goal with
          | |- context [if ?b then _ else _] => destruct b
          end; try reflexivity).
  unfold bind, lift.
  destruct (getitem (PDict d) "error") as [e|err]; [reflexivity|].
  destruct err; try reflexivity.
  destruct (getitem (PDict d) "result") as [e|res]; reflexivity.
Qed.

Lemma invoke_failed_calls svc e w :
  w_calls (Anki.invoke_failed svc e w).1 = w_calls w.
Proof. destruct e; reflexivity. Qed.

(** invoke posts its payload once, whatever comes back. *)
Lemma invoke_calls svc action params w :
  w_calls (Anki.invoke svc action params w).1 =
  w_calls w ++ [Anki.request action params].
Proof.
  unfold Anki.invoke, try_except, bind, log, Anki.post.
  cbn [add_log w_log w_sent w_calls].
  set (w1 := World _ _ _).
  destruct (urlopen svc (w_calls w) (Anki.request action params)) as [e|response].
  - now rewrite invoke_failed_calls.
  - pose proof (check_response_calls svc response w1) as Hc.
    destruct (Anki.check_response svc response w1) as [w2 [e|r]]; cbn [fst] in Hc.
    + now rewrite invoke_failed_calls, Hc.
    + exact Hc.
Qed.

(** C7.  add_notes posts to AnkiConnect exactly the notes that are dicts
    with a deck name, a model name and a fields mapping holding 'Front'
    and 'Back', in their order, in one addNotes request; when no note
    passes, nothing is posted and the empty list is returned. *)
Theorem add_notes_validation_gate svc notes w :
  let valid := List.filter well_formed_note notes in
  match valid with
  | [] =>
      (Anki.add_notes svc notes w).2 = Return (PList []) /\
      w_calls (Anki.add_notes svc notes w).1 = w_calls w
  | _ :: _ =>
      w_calls (Anki.add_notes svc notes w).1 =
        w_calls w ++ [Anki.request "addNotes" ["notes" ~> PList valid]] /\
      exists w', w_calls w' = w_calls w /\
        (Anki.add_notes svc notes w).2 =
        (Anki.invoke svc "addNotes" ["notes" ~> PList valid] w').2
  end.
Proof.
  intros valid. unfold Anki.add_notes.
  destruct (validate_run notes 0 [] w) as [records Hval].
  cbn [app] in Hval. fold valid in Hval.
  destruct notes as [|note rest].
  { cbn. split; reflexivity. }
  rewrite bool_decide_eq_false_2 by discriminate.
  rewrite (bind_Return _ _ _ _ _ Hval).
  destruct valid as [|v vs] eqn:Hvalid.
  - cbn. split; reflexivity.
  - rewrite bool_decide_eq_false_2 by discriminate.
    unfold bind, log. rewrite add_log_app.
    set (w1 := add_log _ w).
    pose proof (invoke_calls svc "addNotes" ["notes" ~> PList (v :: vs)] w1) as Hcalls.
    destruct (Anki.invoke svc "addNotes" ["notes" ~> PList (v :: vs)] w1)
      as [w2 [e|result]] eqn:Hinv; cbn [fst] in Hcalls.
    + split; [exact Hcalls|]. exists w1. split; [reflexivity|]. now rewrite Hinv.
    + split.
      * destruct result; exact Hcalls.
      * exists w1. split; [reflexivity|]. rewrite Hinv. now destruct result.
Qed.

(** One well-formed note and one without a fields mapping: only the first
    reaches AnkiConnect. *)
Lemma add_notes_validation_gate_witness :
  w_calls (Anki.add_notes publish_services
             [basic_note (lit "Topic1") (lit "What is X?") (lit "X is Y.");
              note_without_fields] world0).1 =
  [Anki.request "addNotes"
     ["notes" ~> PList [basic_note (lit "Topic1") (lit "What is X?") (lit "X is Y.")]]].
Proof.
  apply (add_notes_validation_gate publish_services
           [basic_note (lit "Topic1") (lit "What is X?") (lit "X is Y.");
            note_without_fields] world0).
Defined.

(** sync_decks returns whatever the sync request does. *)
Lemma sync_decks_returns svc w : (Anki.sync_decks svc w).2 = Return tt.
Proof.
  unfold Anki.sync_decks, bind, try_except, log.
  now destruct (Anki.invoke svc "sync" [] _) as [w1 [e|r]].
Qed.

(** C6.  sync_decks never raises, whatever the sync request does.  In
    every run of post_flashcards in which deck creation and note
    submission succeed, the answer has status "added" and carries the
    result of the submission. *)
Theorem sync_failure_does_not_fail_publish svc page_name cards w w1 w2 deck result :
  Anki.create_deck svc page_name
    (add_log [(INFO, lit "Creating deck: " ++ fmt svc page_name)] w) =
    (w1, Return deck) ->
  Anki.add_notes svc cards
    (add_log [(INFO, lit "Adding " ++ str_int (Z.of_nat (length cards))
                     ++ lit " notes to deck")] w1) =
    (w2, Return result) ->
  (forall w', (Anki.sync_decks svc w').2 = Return tt)
  /\ exists message,
      (Server.post_flashcards svc page_name cards w).2 =
      Return (dict_of ["status" ~> PStr "added"; "result" ~> result;
                       "message" ~> PStr message])
  /\ status_of (Server.post_flashcards svc page_name cards w).2 = Some (lit "added").
Proof.
  intros Hdeck Hnotes. split; [apply sync_decks_returns|].
  eexists.
  assert (H : (Server.post_flashcards svc page_name cards w).2 =
              Return (dict_of ["status" ~> PStr "added"; "result" ~> result;
                               "message" ~> PStr (lit "Added "
                                  ++ str_int (Z.of_nat (length cards))
                                  ++ lit " flashcards to Anki deck '"
                                  ++ fmt svc page_name ++ lit "'")])).
  { unfold Server.post_flashcards, try_except.
    unfold bind at 1. unfold log at 1.
    rewrite (bind_Return _ _ _ _ _ Hdeck).
    unfold bind at 1. unfold log at 1.
    rewrite (bind_Return _ _ _ _ _ Hnotes).
    unfold bind at 1. unfold log at 1.
    pose proof (sync_decks_returns svc
                  (add_log [(INFO, lit "Syncing Anki decks")] w2)) as Hsync.
    unfold bind at 1.
    destruct (Anki.sync_decks svc _) as [w3 o]. cbn [snd] in Hsync. subst o.
    reflexivity. }
  split; [exact H|]. rewrite H. vm_compute. reflexivity.
Qed.

Lemma sync_failure_does_not_fail_publish_witness :
  (Anki.invoke publish_services "sync" [] world0).2 =
    Raise (Exception (lit "Cannot connect to Anki. Please ensure Anki is running with AnkiConnect installed."))
  /\ exists message,
      (Server.post_flashcards publish_services (PStr "Topic1")
         [basic_note (lit "Topic1") (lit "What is X?") (lit "X is Y.")] world0).2 =
      Return (dict_of ["status" ~> PStr "added"; "result" ~> PList [PInt 12345];
                       "message" ~> PStr message]).
Proof.
  split; [vm_compute; reflexivity|].
  destruct (sync_failure_does_not_fail_publish publish_services (PStr "Topic1")
              [basic_note (lit "Topic1") (lit "What is X?") (lit "X is Y.")] world0
              (Anki.create_deck publish_services (PStr "Topic1")
                 (add_log [(INFO, lit "Creating deck: " ++ lit "Topic1")] world0)).1
              (Anki.add_notes publish_services
                 [basic_note (lit "Topic1") (lit "What is X?") (lit "X is Y.")]
                 (add_log [(INFO, lit "Adding 1 notes to deck")]
                    (Anki.create_deck publish_services (PStr "Topic1")
                       (add_log [(INFO, lit "Creating deck: " ++ lit "Topic1")] world0)).1)).1
              (PInt 1) (PList [PInt 12345]))
    as (_ & message & H & _); [vm_compute; reflexivity | vm_compute; reflexivity |].
  exists message. exact H.
Defined.

(** *** The page locator *)

(** C4.  A result whose 'title' property is present but empty (an untitled
    page) makes search_notion_page raise IndexError, whether or not a
    matching page follows it, where a page locator that checks for a
    non-empty title would go on; search_notion_database does pass over an
    untitled database.  On results with titles the first exact,
    case-sensitive match is returned under either property name. *)
Lemma search_notion_page_untitled_result :
  (Notion.search_notion_page (search_services [untitled_page]) (lit "Topic1") world0).2
    = Raise IndexError
  /\ (Notion.search_notion_page (search_services [untitled_page; topic1_page])
        (lit "Topic1") world0).2 = Raise IndexError
  /\ (Notion.search_notion_page (search_services [topic1_page]) (lit "Topic1") world0).2
    = Return (dict_of ["result" ~> PStr "Found"; "page_id" ~> PStr "p1";
                       "link" ~> PStr "https://www.notion.so/p1"])
  /\ (Notion.search_notion_page (search_services [named_page]) (lit "Topic1") world0).2
    = Return (dict_of ["result" ~> PStr "Found"; "page_id" ~> PStr "p2";
                       "link" ~> PStr "https://www.notion.so/p2"])
  /\ (Notion.search_notion_page (search_services [topic1_page]) (lit "topic1") world0).2
    = Return PNone
  /\ (Notion.search_notion_database
        (search_services [database_of "d0" []; database_of "d1" [text_run (lit "Topic1")]])
        (lit "Topic1") world0).2
    = Return (dict_of ["result" ~> PStr "Found"; "database_id" ~> PStr "d1";
                       "link" ~> PStr "https://www.notion.so/d1"]).
Proof. repeat split; vm_compute; reflexivity. Qed.

(** *** The tool boundary *)

(** Close a goal [exists st, status_of o = Some st /\ P st /\ (H -> Q st)]
    once [o] is an explicit envelope. *)
Ltac envelope :=
  eexists; split; [cbn [snd fst]; vm_compute; reflexivity|];
  split; [vm_compute; auto|];
  let H := fresh in intros H; first [congruence | vm_compute; reflexivity].

Lemma blank_returns name :
  name = PNone \/ (exists s, name = PStr s) -> exists b, blank name = Return b.
Proof.
  intros [->|[s ->]]; [now exists true|].
  unfold blank. destruct (truthy (PStr s)); eexists; reflexivity.
Qed.

Lemma search_page_status svc name w :
  name = PNone \/ (exists s, name = PStr s) ->
  exists st,
    status_of (Server.search_page svc name w).2 = Some st /\
    (st = lit "success" \/ st = lit "error") /\
    (blank name = Return true -> st = lit "error").
Proof.
  intros Hname. destruct (blank_returns name Hname) as [b Hb].
  unfold Server.search_page, bind, lift, try_except. rewrite Hb.
  destruct b; [envelope|].
  destruct (str_receiver name) as [e|s]; [envelope|].
  destruct (Notion.search_notion_page svc (strip s) w) as [w1 [e|page]];
    [envelope|].
  destruct (truthy page); envelope.
Qed.

Lemma extract_page_content_status svc name w :
  name = PNone \/ (exists s, name = PStr s) ->
  exists st,
    status_of (Server.extract_page_content svc name w).2 = Some st /\
    (st = lit "success" \/ st = lit "error") /\
    (blank name = Return true -> st = lit "error").
Proof.
  intros Hname. destruct (blank_returns name Hname) as [b Hb].
  unfold Server.extract_page_content, bind, lift, try_except. rewrite Hb.
  destruct b; [envelope|].
  destruct (str_receiver name) as [e|s]; [envelope|].
  destruct (Notion.fetch_page_content svc (strip s) w) as [w1 [e|[[t c]|]]];
    [envelope| |envelope].
  destruct (negb (bool_decide (t ≠ ∅)) && negb (bool_decide (c ≠ ∅))); envelope.
Qed.

Lemma generate_flashcards_status svc name topics content w :
  name = PNone \/ (exists s, name = PStr s) ->
  exists st,
    status_of (Server.generate_flashcards svc name topics content w).2 = Some st /\
    (st = lit "created" \/ st = lit "failed") /\
    (blank name = Return true -> st = lit "failed").
Proof.
  intros Hname. destruct (blank_returns name Hname) as [b Hb].
  unfold Server.generate_flashcards, bind, lift, try_except. rewrite Hb.
  destruct b; [envelope|].
  destruct (bool_decide (length topics = 0) && bool_decide (content = ∅));
    [envelope|].
  destruct (bool_decide (content = ∅)); [envelope|].
  unfold send_log_message at 1.
  destruct (flashcards_gpt svc name topics content) as [e|cards]; [envelope|].
  destruct (bool_decide (length cards = 0)); [envelope|].
  unfold send_log_message at 1.
  destruct (Server.post_flashcards svc name cards _) as [w2 [e|publish_result]];
    [envelope|].
  destruct (getitem publish_result "status") as [e|status]; [envelope|].
  destruct (eq_str status "added"); [envelope|].
  destruct (getitem publish_result "message") as [e|message]; envelope.
Qed.

(** C8, as amended.  Called with a name that is None or a string, each of
    the three tools returns a status envelope, whatever its component
    calls raise: search_page and extract_page_content with status
    "success" or "error", generate_flashcards with status "created" or
    "failed".  An empty, blank or missing name is reported with status
    "error" by the first two and with status "failed" by
    generate_flashcards. *)
Theorem tools_answer_with_envelopes svc name topics content w :
  name = PNone \/ (exists s, name = PStr s) ->
  exists s1 s2 s3,
    status_of (Server.search_page svc name w).2 = Some s1
    /\ status_of (Server.extract_page_content svc name w).2 = Some s2
    /\ status_of (Server.generate_flashcards svc name topics content w).2 = Some s3
    /\ (s1 = lit "success" \/ s1 = lit "error")
    /\ (s2 = lit "success" \/ s2 = lit "error")
    /\ (s3 = lit "created" \/ s3 = lit "failed")
    /\ (blank name = Return true ->
        s1 = lit "error" /\ s2 = lit "error" /\ s3 = lit "failed").
Proof.
  intros Hname.
  destruct (search_page_status svc name w Hname) as (s1 & H1 & R1 & B1).
  destruct (extract_page_content_status svc name w Hname) as (s2 & H2 & R2 & B2).
  destruct (generate_flashcards_status svc name topics content w Hname)
    as (s3 & H3 & R3 & B3).
  exists s1, s2, s3. repeat split; auto.
Qed.

Lemma tools_answer_with_envelopes_witness :
  status_of (Server.search_page topic1_services (PStr (lit "  ")) world0).2
    = Some (lit "error")
  /\ status_of (Server.extract_page_content topic1_services (PStr (lit "  ")) world0).2
    = Some (lit "error")
  /\ status_of (Server.generate_flashcards topic1_services (PStr (lit "  "))
                  [lit "Topic1"] {[lit "What is X?" := lit "X is Y."]} world0).2
    = Some (lit "failed").
Proof.
  destruct (tools_answer_with_envelopes topic1_services (PStr (lit "  "))
              [lit "Topic1"] {[lit "What is X?" := lit "X is Y."]} world0)
    as (s1 & s2 & s3 & H1 & H2 & H3 & _ & _ & _ & Hblank).
  { right. now exists (lit "  "). }
  destruct Hblank as (-> & -> & ->); [vm_compute; reflexivity|].
  repeat split; assumption.
Defined.

(** C8, counterexample.  With an empty page name generate_flashcards
    answers with the status "failed", which is not the status "error". *)
Lemma generate_flashcards_empty_name_is_failed :
  status_of (Server.generate_flashcards topic1_services (PStr (lit ""))
               [lit "Topic1"] {[lit "What is X?" := lit "X is Y."]} world0).2
    = Some (lit "failed")
  /\ status_of (Server.generate_flashcards topic1_services (PStr (lit ""))
                  [lit "Topic1"] {[lit "What is X?" := lit "X is Y."]} world0).2
    <> Some (lit "error").
Proof.
  assert (H : status_of (Server.generate_flashcards topic1_services (PStr (lit ""))
                 [lit "Topic1"] {[lit "What is X?" := lit "X is Y."]} world0).2
              = Some (lit "failed")) by (vm_compute; reflexivity).
  split; [exact H|]. rewrite H. vm_compute. discriminate.
Qed.

(** A failing search does not leave search_page as an exception. *)
Lemma search_page_reports_service_error :
  status_of (Server.search_page topic1_services (PStr (lit "Topic1")) world0).2
    = Some (lit "error").
Proof. vm_compute. reflexivity. Qed.

(** *** invoke *)

Lemma invoke_failed_run svc e w :
  exists msg,
    Anki.invoke_failed svc e w =
    (add_log [(ERROR, msg)] w,
     Raise match e with
           | URLError => Exception (lit "Cannot connect to Anki. Please ensure Anki is running with AnkiConnect installed.")
           | JSONDecodeError => Exception (lit "Invalid response from AnkiConnect")
           | _ => e
           end).
Proof. destruct e; eexists; reflexivity. Qed.

(** What the checks of invoke make of a decoded answer. *)
Lemma check_response_run svc response w :
  match accepted (Return response) with
  | Some result =>
      Anki.check_response svc response w =
      (add_log [(DEBUG, lit "AnkiConnect response: " ++ fmt svc result)] w,
       Return result)
  | None =>
      Anki.check_response svc response w = (w, Raise (refused svc (Return response)))
  end.
Proof.
  destruct response as [| | | | |d]; try reflexivity.
  cbn [accepted refused Anki.check_response].
  case_bool_decide as Hsize; cbn [negb]; [|reflexivity].
  rewrite !is_Some_bool.
  destruct (d !! lit "error") as [err|] eqn:Herr; cbn [negb]; [|reflexivity].
  destruct (d !! lit "result") as [res|] eqn:Hres; cbn [negb];
    [|now destruct err].
  unfold bind, lift. cbn [getitem]. rewrite Herr, Hres.
  now destruct err.
Qed.

(** invoke as a function of the answer to its one request. *)
Lemma invoke_run svc action params w :
  let answer := urlopen svc (w_calls w) (Anki.request action params) in
  exists records,
    Anki.invoke svc action params w =
    (World (w_log w ++ records) (w_sent w)
           (w_calls w ++ [Anki.request action params]),
     match accepted answer with
     | Some result => Return result
     | None => Raise (refused svc answer)
     end)
    /\ (accepted answer = None ->
        exists before msg, records = before ++ [(ERROR, msg)]).
Proof.
  intros answer. unfold Anki.invoke, try_except, bind, log, Anki.post.
  cbn [add_log w_log w_sent w_calls]. fold answer.
  set (w1 := World _ _ _).
  destruct answer as [e|response] eqn:Hanswer.
  - destruct (invoke_failed_run svc e w1) as [msg ->].
    eexists. split.
    + unfold add_log, w1. cbn [w_log w_sent w_calls]. rewrite <- app_assoc.
      destruct e; reflexivity.
    + intros _. eexists _, msg. reflexivity.
  - pose proof (check_response_run svc response w1) as Hcheck.
    destruct (accepted (Return response)) as [result|] eqn:Hacc.
    + rewrite Hcheck. eexists. split; [|discriminate].
      unfold add_log, w1. cbn [w_log w_sent w_calls]. now rewrite <- app_assoc.
    + rewrite Hcheck.
      destruct (invoke_failed_run svc (refused svc (Return response)) w1)
        as [msg Hfail].
      rewrite Hfail. eexists. split.
      * unfold add_log, w1. cbn [w_log w_sent w_calls]. rewrite <- app_assoc.
        f_equal. f_equal.
        destruct response as [| | | | |d]; try reflexivity.
        cbn [refused accepted] in *.
        destruct (bool_decide (size d = 2)); cbn [negb]; [|reflexivity].
        destruct (d !! lit "error") as [err|]; [|reflexivity].
        destruct (d !! lit "result") as [res|]; reflexivity.
      * intros _. eexists _, msg. reflexivity.
Qed.

(** X1.  invoke posts its request exactly once, and it returns a result
    exactly when the decoded answer is a dict with just the two keys
    'error' and 'result' whose error is None; what it returns is then the
    'result' of that answer. *)
Theorem invoke_returns_accepted_result svc action params w :
  w_calls (Anki.invoke svc action params w).1 =
    w_calls w ++ [Anki.request action params]
  /\ forall result,
      (Anki.invoke svc action params w).2 = Return result <->
      accepted (urlopen svc (w_calls w) (Anki.request action params)) = Some result.
Proof.
  destruct (invoke_run svc action params w) as (records & -> & _).
  split; [reflexivity|]. intros result. cbn [snd].
  destruct (accepted _) as [r|]; split; congruence.
Qed.

(** X2.  When invoke raises, the exception is the one the answer calls for
    ([refused]): a fixed "Cannot connect to Anki" Exception for a URLError
    and a fixed "Invalid response" Exception for a JSONDecodeError, so
    that neither of these two classes reaches the caller; and the last
    record invoke sent to the log is an ERROR record. *)
Theorem invoke_failure_is_logged_and_translated svc action params w e :
  (Anki.invoke svc action params w).2 = Raise e ->
  e = refused svc (urlopen svc (w_calls w) (Anki.request action params))
  /\ e <> URLError /\ e <> JSONDecodeError
  /\ exists before msg,
      w_log (Anki.invoke svc action params w).1 = w_log w ++ before ++ [(ERROR, msg)].
Proof.
  destruct (invoke_run svc action params w) as (records & -> & Hlog).
  cbn [fst snd w_log].
  destruct (accepted _) as [r|] eqn:Hacc; [discriminate|]. intros [= <-].
  destruct (Hlog eq_refl) as (before & msg & ->).
  split; [reflexivity|]. repeat split; [| |now exists before, msg].
  - destruct (urlopen _ _ _) as [[]|[]]; cbn [refused]; try discriminate;
      repeat (match goal with
              | |- context [if ?b then _ else _] => destruct b
              | |- context [match ?o with Some _ => _ | None => _ end] => destruct o
              end); discriminate.
  - destruct (urlopen _ _ _) as [[]|[]]; cbn [refused]; try discriminate;
      repeat (match goal with
              | |- context [if ?b then _ else _] => destruct b
              | |- context [match ?o with Some _ => _ | None => _ end] => destruct o
              end); discriminate.
Qed.

Lemma invoke_failure_is_logged_and_translated_witness :
  Exception (lit "Cannot connect to Anki. Please ensure Anki is running with AnkiConnect installed.")
  = refused (anki_answering (Raise URLError)) (Raise URLError).
Proof.
  apply (invoke_failure_is_logged_and_translated (anki_answering (Raise URLError))
           (lit "version") [] world0).
  vm_compute. reflexivity.
Defined.

(** *** create_deck, add_card and sync_decks *)

Lemma create_deck_run svc name w :
  match blank name with
  | Return false =>
      exists s records,
        name = PStr s /\
        Anki.create_deck svc name w =
        (World (w_log w ++ records) (w_sent w) (w_calls w ++ [deck_request s]),
         match accepted (urlopen svc (w_calls w) (deck_request s)) with
         | Some result => Return result
         | None => Raise (refused svc (urlopen svc (w_calls w) (deck_request s)))
         end)
  | Return true =>
      Anki.create_deck svc name w =
      (w, Raise (ValueError (lit "Deck name cannot be empty")))
  | Raise e => Anki.create_deck svc name w = (w, Raise e)
  end.
Proof.
  unfold Anki.create_deck, bind, lift.
  destruct (blank name) as [e|[]] eqn:Hblank; [reflexivity|reflexivity|].
  destruct name as [| | |s| |]; try (unfold blank in Hblank; cbn in Hblank; discriminate);
    try (unfold blank in Hblank; destruct (truthy _); discriminate).
  cbn [str_receiver]. cbv zeta. unfold try_except, log, bind.
  exists s. unfold deck_request.
  match goal with
  | |- context [Anki.invoke svc ?a ?p ?w0] =>
      destruct (invoke_run svc a p w0) as (records & Hinv & _); rewrite Hinv
  end.
  cbn [add_log w_log w_sent w_calls].
  destruct (accepted _) as [result|].
  - eexists. split; [reflexivity|]. unfold add_log. cbn [w_log w_sent w_calls].
    rewrite <- !app_assoc. reflexivity.
  - eexists. split; [reflexivity|]. unfold add_log, raise. cbn [w_log w_sent w_calls].
    rewrite <- !app_assoc. reflexivity.
Qed.

(** X3.  create_deck raises ValueError and posts nothing when the name is
    None, empty or blank; for any other string it posts exactly one
    createDeck request, carrying the trimmed name, and its outcome is the
    one invoke reports for that request. *)
Theorem create_deck_posts_trimmed_name svc name w :
  match blank name with
  | Return false =>
      exists s, name = PStr s /\
        w_calls (Anki.create_deck svc name w).1 = w_calls w ++ [deck_request s] /\
        (Anki.create_deck svc name w).2 = invoked svc (w_calls w) (deck_request s)
  | Return true =>
      Anki.create_deck svc name w =
      (w, Raise (ValueError (lit "Deck name cannot be empty")))
  | Raise e => Anki.create_deck svc name w = (w, Raise e)
  end.
Proof.
  pose proof (create_deck_run svc name w) as H.
  destruct (blank name) as [e|[]]; [exact H|exact H|].
  destruct H as (s & records & -> & ->). exists s. repeat split.
Qed.

Lemma create_deck_posts_trimmed_name_witness :
  w_calls (Anki.create_deck publish_services (PStr (lit "  Topic1 ")) world0).1 =
    [Anki.request "createDeck" ["deck" ~> PStr (lit "Topic1")]]
  /\ Anki.create_deck publish_services (PStr (lit "   ")) world0 =
     (world0, Raise (ValueError (lit "Deck name cannot be empty"))).
Proof.
  split.
  - pose proof (create_deck_posts_trimmed_name publish_services
                  (PStr (lit "  Topic1 ")) world0) as H.
    vm_compute in H. destruct H as (s & [= <-] & H & _). vm_compute. exact H.
  - apply (create_deck_posts_trimmed_name publish_services (PStr (lit "   ")) world0).
Defined.

(** X4.  add_card raises ValueError and posts nothing when one of its three
    arguments is the empty string; otherwise it posts exactly one
    guiAddCards request whose note carries the trimmed deck name, question
    and answer and passes the validation of add_notes.  Only emptiness is
    tested: a blank question is accepted and sent as an empty Front. *)
Theorem add_card_posts_trimmed_note svc deck_name question answer w :
  let note := basic_note (strip deck_name) (strip question) (strip answer) in
  if nonempty deck_name && nonempty question && nonempty answer then
    w_calls (Anki.add_card svc deck_name question answer w).1 =
      w_calls w ++ [Anki.request "guiAddCards" ["note" ~> note]]
    /\ (Anki.add_card svc deck_name question answer w).2 =
       invoked svc (w_calls w) (Anki.request "guiAddCards" ["note" ~> note])
    /\ well_formed_note note = true
  else
    Anki.add_card svc deck_name question answer w =
    (w, Raise (ValueError (lit "Deck name, question, and answer are all required"))).
Proof.
  intros note. unfold Anki.add_card.
  destruct (nonempty deck_name), (nonempty question), (nonempty answer);
    cbn [negb orb andb]; try reflexivity.
  cbv zeta. unfold bind, log.
  match goal with
  | |- context [Anki.invoke svc ?a ?p ?w0] =>
      destruct (invoke_run svc a p w0) as (records & Hinv & _); rewrite Hinv
  end.
  split; [reflexivity|]. split; [reflexivity|]. vm_compute. reflexivity.
Qed.

Lemma sync_decks_run svc w :
  exists records,
    Anki.sync_decks svc w =
    (World (w_log w ++ records) (w_sent w) (w_calls w ++ [sync_request]),
     Return tt).
Proof.
  unfold Anki.sync_decks, bind, try_except, log.
  match goal with
  | |- context [Anki.invoke svc ?a ?p ?w0] =>
      destruct (invoke_run svc a p w0) as (records & Hinv & _); rewrite Hinv
  end.
  cbn [add_log w_log w_sent w_calls].
  destruct (accepted _); eexists; unfold add_log; cbn [w_log w_sent w_calls];
    rewrite <- !app_assoc; reflexivity.
Qed.

Lemma add_notes_run svc notes w :
  match List.filter well_formed_note notes with
  | [] =>
      exists records,
        Anki.add_notes svc notes w = (add_log records w, Return (PList []))
  | valid =>
      exists records,
        Anki.add_notes svc notes w =
        (World (w_log w ++ records) (w_sent w)
               (w_calls w ++ [notes_request valid]),
         invoked svc (w_calls w) (notes_request valid))
  end.
Proof.
  unfold Anki.add_notes.
  destruct (validate_run notes 0 [] w) as [records Hval]. cbn [app] in Hval.
  destruct notes as [|note rest].
  { exists [(WARNING, lit "No notes provided to add_notes")]. reflexivity. }
  rewrite bool_decide_eq_false_2 by discriminate.
  rewrite (bind_Return _ _ _ _ _ Hval).
  destruct (List.filter well_formed_note (note :: rest)) as [|v vs].
  - rewrite bool_decide_eq_true_2 by reflexivity.
    unfold bind, log, ret. eexists. rewrite add_log_app. reflexivity.
  - rewrite bool_decide_eq_false_2 by discriminate.
    unfold bind, log. rewrite add_log_app.
    match goal with
    | |- context [Anki.invoke svc ?a ?p ?w0] =>
        destruct (invoke_run svc a p w0) as (r2 & Hinv & _); rewrite Hinv
    end.
    cbn [add_log w_log w_sent w_calls]. unfold invoked, notes_request.
    destruct (accepted _) as [[]|]; eexists; unfold add_log, ret;
      cbn [w_log w_sent w_calls]; rewrite <- ?app_assoc; reflexivity.
Qed.

Lemma add_card_posts_trimmed_note_witness :
  w_calls (Anki.add_card publish_services (lit "Topic1") (lit "  ") (lit "X is Y.") world0).1 =
  [Anki.request "guiAddCards"
     ["note" ~> basic_note (lit "Topic1") (lit "") (lit "X is Y.")]].
Proof.
  apply (add_card_posts_trimmed_note publish_services
           (lit "Topic1") (lit "  ") (lit "X is Y.") world0).
Defined.

(** *** post_flashcards *)

Lemma world_eta w : World (w_log w) (w_sent w) (w_calls w) = w.
Proof. now destruct w. Qed.

(** post_flashcards as a function of the answers to its requests. *)
Lemma post_flashcards_run svc page_name cards w :
  exists records,
    Server.post_flashcards svc page_name cards w =
    (World (w_log w ++ records) (w_sent w)
           (w_calls w ++ publish_trace svc page_name cards (w_calls w)),
     Return
       match published svc page_name cards (w_calls w) with
       | Return result =>
           dict_of ["status" ~> PStr "added"; "result" ~> result;
                    "message" ~> PStr (lit "Added "
                       ++ str_int (Z.of_nat (length cards))
                       ++ lit " flashcards to Anki deck '"
                       ++ fmt svc page_name ++ lit "'")]
       | Raise e =>
           dict_of ["status" ~> PStr "error"; "result" ~> PList [];
                    "message" ~> PStr (lit "Failed to add flashcards: "
                                       ++ str_exn svc e)]
       end).
Proof.
  unfold Server.post_flashcards, try_except. cbv zeta.
  unfold bind at 1. unfold log at 1.
  set (w0 := add_log _ w).
  pose proof (create_deck_run svc page_name w0) as Hdeck.
  unfold publish_trace, published.
  destruct (blank page_name) as [e|[]] eqn:Hblank.
  - rewrite (bind_Raise _ _ _ _ _ Hdeck).
    unfold bind, log, ret, w0, add_log. cbn [w_log w_sent w_calls].
    eexists. rewrite <- !app_assoc, (app_nil_r (w_calls w)). reflexivity.
  - rewrite (bind_Raise _ _ _ _ _ Hdeck).
    unfold bind, log, ret, w0, add_log. cbn [w_log w_sent w_calls].
    eexists. rewrite <- !app_assoc, (app_nil_r (w_calls w)).
    destruct page_name; reflexivity.
  - destruct Hdeck as (name & r1 & -> & Hdeck).
    change (w_calls w0) with (w_calls w) in Hdeck.
    unfold invoked.
    destruct (accepted (urlopen svc (w_calls w) (deck_request name))) as [deck|].
    + rewrite (bind_Return _ _ _ _ _ Hdeck).
      unfold bind at 1. unfold log at 1.
      set (w1 := add_log _ _).
      pose proof (add_notes_run svc cards w1) as Hnotes.
      change (w_calls w1) with (w_calls w ++ [deck_request name]) in Hnotes.
      destruct (List.filter well_formed_note cards) as [|v vs].
      * destruct Hnotes as [r2 Hnotes].
        rewrite (bind_Return _ _ _ _ _ Hnotes).
        unfold bind at 1. unfold log at 1.
        set (w2 := add_log _ _).
        destruct (sync_decks_run svc w2) as [r3 Hsync].
        rewrite (bind_Return _ _ _ _ _ Hsync).
        unfold bind, log, ret, w2, w1, w0, add_log. cbn [w_log w_sent w_calls].
        eexists. rewrite <- !app_assoc. reflexivity.
      * destruct Hnotes as [r2 Hnotes]. unfold invoked in Hnotes.
        destruct (accepted (urlopen svc (w_calls w ++ [deck_request name])
                              (notes_request (v :: vs)))) as [result|].
        -- rewrite (bind_Return _ _ _ _ _ Hnotes).
           unfold bind at 1. unfold log at 1.
           set (w2 := add_log _ _).
           destruct (sync_decks_run svc w2) as [r3 Hsync].
           rewrite (bind_Return _ _ _ _ _ Hsync).
           unfold bind, log, ret, w2, w1, w0, add_log. cbn [w_log w_sent w_calls].
           eexists. rewrite <- !app_assoc. reflexivity.
        -- rewrite (bind_Raise _ _ _ _ _ Hnotes).
           unfold bind, log, ret, w1, w0, add_log. cbn [w_log w_sent w_calls].
           eexists. rewrite <- !app_assoc. reflexivity.
    + rewrite (bind_Raise _ _ _ _ _ Hdeck).
      unfold bind, log, ret, w0, add_log. cbn [w_log w_sent w_calls].
      eexists. rewrite <- !app_assoc. reflexivity.
Qed.

(** X5.  The requests post_flashcards makes are those of [publish_trace]:
    none for a blank or missing page name; otherwise createDeck with the
    trimmed name, then, only if it was accepted, addNotes with the
    well-formed cards (left out when there are none), then, only if that
    was accepted, sync.  Nothing is sent to the MCP client. *)
Theorem post_flashcards_requests_in_order svc page_name cards w :
  w_calls (Server.post_flashcards svc page_name cards w).1 =
    w_calls w ++ publish_trace svc page_name cards (w_calls w)
  /\ w_sent (Server.post_flashcards svc page_name cards w).1 = w_sent w.
Proof.
  destruct (post_flashcards_run svc page_name cards w) as [records ->].
  split; reflexivity.
Qed.

Lemma post_flashcards_requests_in_order_witness :
  w_calls (Server.post_flashcards publish_services (PStr (lit "Topic1"))
             [basic_note (lit "Topic1") (lit "What is X?") (lit "X is Y.");
              note_without_fields] world0).1 =
    [deck_request (lit "Topic1");
     notes_request [basic_note (lit "Topic1") (lit "What is X?") (lit "X is Y.")];
     sync_request]
  /\ w_calls (Server.post_flashcards (anki_answering (Raise URLError))
                (PStr (lit "Topic1"))
                [basic_note (lit "Topic1") (lit "What is X?") (lit "X is Y.")]
                world0).1 =
    [deck_request (lit "Topic1")].
Proof.
  split.
  - apply (post_flashcards_requests_in_order publish_services (PStr (lit "Topic1"))
             [basic_note (lit "Topic1") (lit "What is X?") (lit "X is Y.");
              note_without_fields] world0).
  - apply (post_flashcards_requests_in_order (anki_answering (Raise URLError))
             (PStr (lit "Topic1"))
             [basic_note (lit "Topic1") (lit "What is X?") (lit "X is Y.")] world0).
Defined.

(** X6.  post_flashcards never raises: it returns an envelope whose status
    is "added", with the result of the submission (the empty list when no
    card is well-formed), when the deck creation and the submission were
    accepted, and whose status is "error", with an empty result,
    otherwise. *)
Theorem post_flashcards_always_answers svc page_name cards w :
  exists envelope,
    (Server.post_flashcards svc page_name cards w).2 = Return envelope /\
    match published svc page_name cards (w_calls w) with
    | Return result =>
        getitem envelope "status" = Return (PStr "added") /\
        getitem envelope "result" = Return result
    | Raise _ =>
        getitem envelope "status" = Return (PStr "error") /\
        getitem envelope "result" = Return (PList [])
    end.
Proof.
  destruct (post_flashcards_run svc page_name cards w) as [records ->].
  eexists. split; [reflexivity|].
  destruct (published svc page_name cards (w_calls w)); split; vm_compute; reflexivity.
Qed.

(** *** generate_flashcards *)

Lemma publish_added_status result message :
  getitem (dict_of ["status" ~> PStr "added"; "result" ~> result;
                    "message" ~> message]) "status" = Return (PStr "added").
Proof. vm_compute. reflexivity. Qed.

Lemma publish_error_status result message :
  getitem (dict_of ["status" ~> PStr "error"; "result" ~> result;
                    "message" ~> message]) "status" = Return (PStr "error").
Proof. vm_compute. reflexivity. Qed.

Lemma publish_error_message result message :
  getitem (dict_of ["status" ~> PStr "error"; "result" ~> result;
                    "message" ~> message]) "message" = Return message.
Proof. vm_compute. reflexivity. Qed.

(** X7.  For a page name that is None or a string, generate_flashcards
    returns an envelope.  Without generated cards (blank name, no content,
    a completion call that raises or returns nothing) the status is
    "failed", the cards are empty and nothing is posted to AnkiConnect.
    With generated cards the requests are those of post_flashcards, the
    envelope carries all the generated cards, also those the validation of
    add_notes dropped, and the status is "created" exactly when
    post_flashcards answered "added". *)
Theorem generate_flashcards_publishes_what_was_generated
    svc page_name topics content w b :
  blank page_name = Return b ->
  exists envelope,
    (Server.generate_flashcards svc page_name topics content w).2 = Return envelope /\
    match generated svc page_name topics content with
    | None =>
        w_calls (Server.generate_flashcards svc page_name topics content w).1 =
          w_calls w /\
        getitem envelope "status" = Return (PStr "failed") /\
        getitem envelope "cards" = Return (PList [])
    | Some cards =>
        w_calls (Server.generate_flashcards svc page_name topics content w).1 =
          w_calls w ++ publish_trace svc page_name cards (w_calls w) /\
        getitem envelope "cards" = Return (PList cards) /\
        getitem envelope "status" =
          Return (PStr match published svc page_name cards (w_calls w) with
                       | Return _ => lit "created"
                       | Raise _ => lit "failed"
                       end)
    end.
Proof.
  intros Hb.
  destruct (Server.generate_flashcards svc page_name topics content w)
    as [w' o] eqn:Hrun.
  cbn [fst snd]. revert Hrun.
  unfold generated, Server.generate_flashcards, bind, lift, try_except.
  rewrite Hb. destruct b.
  { intros [= <- <-]. eexists. split; [reflexivity|].
    split; [reflexivity|]. split; vm_compute; reflexivity. }
  destruct (bool_decide (content = ∅)).
  { destruct (bool_decide (length topics = 0)); cbn [andb];
      intros [= <- <-]; eexists; (split; [reflexivity|]);
      (split; [reflexivity|]); split; vm_compute; reflexivity. }
  rewrite andb_false_r. unfold send_log_message at 1.
  destruct (flashcards_gpt svc page_name topics content) as [e|[|card cards]].
  - intros [= <- <-]. eexists. split; [reflexivity|].
    split; [reflexivity|]. split; vm_compute; reflexivity.
  - intros [= <- <-]. eexists. split; [reflexivity|].
    split; [reflexivity|]. split; vm_compute; reflexivity.
  - rewrite bool_decide_eq_false_2 by discriminate.
    unfold send_log_message at 1.
    match goal with
    | |- context [Server.post_flashcards svc ?n ?c ?w0] =>
        destruct (post_flashcards_run svc n c w0) as [records Hpost];
        rewrite Hpost
    end.
    cbn [w_log w_sent w_calls].
    destruct (published svc page_name (card :: cards) (w_calls w)) as [e|result];
      cbv beta iota.
    + rewrite publish_error_status. cbv beta iota.
      replace (eq_str (PStr "error") "added") with false by (vm_compute; reflexivity).
      rewrite publish_error_message. cbv beta iota. unfold ret.
      intros [= <- <-]. eexists. split; [reflexivity|].
      split; [reflexivity|]. split; vm_compute; reflexivity.
    + rewrite publish_added_status. cbv beta iota.
      replace (eq_str (PStr "added") "added") with true by (vm_compute; reflexivity).
      unfold ret. intros [= <- <-]. eexists. split; [reflexivity|].
      split; [reflexivity|]. split; vm_compute; reflexivity.
Qed.

Lemma generate_flashcards_publishes_what_was_generated_witness :
  exists envelope,
    (Server.generate_flashcards (gpt_services [note_without_fields] anki_accepting)
       (PStr (lit "Topic1")) [lit "Topic1"]
       {[lit "What is X?" := lit "X is Y."]} world0).2 = Return envelope
    /\ getitem envelope "status" = Return (PStr "created")
    /\ getitem envelope "cards" = Return (PList [note_without_fields])
    /\ w_calls (Server.generate_flashcards
                  (gpt_services [note_without_fields] anki_accepting)
                  (PStr (lit "Topic1")) [lit "Topic1"]
                  {[lit "What is X?" := lit "X is Y."]} world0).1 =
       [deck_request (lit "Topic1"); sync_request].
Proof.
  destruct (generate_flashcards_publishes_what_was_generated
              (gpt_services [note_without_fields] anki_accepting)
              (PStr (lit "Topic1")) [lit "Topic1"]
              {[lit "What is X?" := lit "X is Y."]} world0 false)
    as (envelope & Henv & H); [vm_compute; reflexivity|].
  exists envelope. split; [exact Henv|].
  assert (Hg : generated (gpt_services [note_without_fields] anki_accepting)
                 (PStr (lit "Topic1")) [lit "Topic1"]
                 {[lit "What is X?" := lit "X is Y."]} = Some [note_without_fields])
    by (vm_compute; reflexivity).
  rewrite Hg in H. destruct H as (_ & Hcards & Hstatus).
  assert (Hp : published (gpt_services [note_without_fields] anki_accepting)
                 (PStr (lit "Topic1")) [note_without_fields] (w_calls world0)
               = Return (PList [])) by (vm_compute; reflexivity).
  rewrite Hp in Hstatus.
  split; [exact Hstatus|]. split; [exact Hcards|]. vm_compute. reflexivity.
Defined.

(** *** The counter of numbered items *)

Lemma toggle_step_number st block st' :
  Notion.toggle_step st block = Return st' ->
  Notion.number st' =
  if is_numbered block then next_number st else Notion.number st.
Proof.
  unfold is_numbered, Notion.toggle_step.
  intros (ty & -> & (st1 & H & (ty' & _ & [= <-])%and_then_Return)%and_then_Return)%and_then_Return.
  cbn [Notion.number].
  destruct (eq_str ty "paragraph") eqn:Hp.
  { apply eq_str_true in Hp as ->.
    replace (eq_str (PStr "paragraph") "numbered_list_item") with false
      by (vm_compute; reflexivity).
    apply and_then_Return in H as (? & _ & H).
    apply and_then_Return in H as (? & _ & H).
    apply and_then_Return in H as (? & _ & [= <-]). reflexivity. }
  destruct (eq_str ty "bulleted_list_item") eqn:Hb.
  { apply eq_str_true in Hb as ->.
    replace (eq_str (PStr "bulleted_list_item") "numbered_list_item") with false
      by (vm_compute; reflexivity).
    apply and_then_Return in H as (? & _ & H).
    apply and_then_Return in H as (? & _ & H).
    apply and_then_Return in H as (? & _ & [= <-]). reflexivity. }
  destruct (eq_str ty "numbered_list_item") eqn:Hn.
  - apply and_then_Return in H as (? & _ & H).
    apply and_then_Return in H as (? & _ & H).
    apply and_then_Return in H as (? & _ & [= <-]). reflexivity.
  - now injection H as <-.
Qed.

Lemma numbered_run_snoc pre block :
  numbered_run (pre ++ [block]) =
  if is_numbered block then S (numbered_run pre) else 0.
Proof. unfold numbered_run. now rewrite rev_app_distr. Qed.

(** The counter the next numbered item gets is one more than the length
    of the run of numbered items the walk has just passed. *)
Lemma next_number_run pre st :
  Notion.toggle_loop Notion.walk0 pre = Return st ->
  next_number st = (Z.of_nat (numbered_run pre) + 1)%Z.
Proof.
  revert st. induction pre as [|block pre IH] using rev_ind; intros st.
  - now intros [= <-].
  - intros (st1 & Hpre & Hstep)%toggle_loop_snoc.
    specialize (IH st1 Hpre). rewrite numbered_run_snoc.
    pose proof (toggle_step_number _ _ _ Hstep) as Hnum.
    pose proof (toggle_step_type _ _ _ Hstep) as Hty.
    unfold next_number at 1. unfold is_numbered in *. rewrite Hty in *.
    destruct (eq_str (Notion.previous_type st) "numbered_list_item").
    + rewrite Hnum, IH. lia.
    + reflexivity.
Qed.

(** X8.  get_toggle_answer numbers by runs.  When the loop has gone through
    the children [pre] and the next child is a numbered item with text [s],
    the item is rendered as the line "<n>. s" with n one more than the
    number of numbered items that end [pre] without interruption: 1 at the
    start and after any other child, whatever came before it. *)
Theorem numbered_item_counts_its_run pre cur s st :
  Notion.toggle_loop Notion.walk0 pre = Return st ->
  block_text "numbered_list_item" cur = Some s ->
  Notion.toggle_loop Notion.walk0 (pre ++ [cur]) =
  Return (Notion.Walk
            (Notion.answer st
             ++ (str_int (Z.of_nat (numbered_run pre) + 1) ++ lit ". " ++ s) ++ nl)
            (Z.of_nat (numbered_run pre) + 1) (PStr "numbered_list_item")).
Proof.
  intros Hpre Hcur. rewrite toggle_loop_app, Hpre.
  cbn [and_then Notion.toggle_loop].
  rewrite (toggle_step_numbered _ _ _ Hcur). cbn [and_then].
  now rewrite (next_number_run pre st Hpre).
Qed.

Lemma numbered_item_counts_its_run_witness :
  Notion.toggle_loop Notion.walk0
    ([block_of "c1" "paragraph" (lit "A");
      block_of "c2" "numbered_list_item" (lit "B");
      block_of "c3" "numbered_list_item" (lit "C")]
     ++ [block_of "c4" "numbered_list_item" (lit "D")]) =
  Return (Notion.Walk
            ((lit "A" ++ nl ++ lit "1. B" ++ nl ++ lit "2. C" ++ nl)
             ++ (str_int 3 ++ lit ". " ++ lit "D") ++ nl)
            3 (PStr "numbered_list_item")).
Proof.
  apply (numbered_item_counts_its_run
           [block_of "c1" "paragraph" (lit "A");
            block_of "c2" "numbered_list_item" (lit "B");
            block_of "c3" "numbered_list_item" (lit "C")]
           (block_of "c4" "numbered_list_item" (lit "D")) (lit "D")
           (Notion.Walk (lit "A" ++ nl ++ lit "1. B" ++ nl ++ lit "2. C" ++ nl)
                        2 (PStr "numbered_list_item")));
    vm_compute; reflexivity.
Defined.

(** *** Children that cannot be read *)

Lemma getitem_raises v k e : getitem v k = Raise e -> lookup_error e = true.
Proof.
  destruct v as [| | | | |d]; cbn [getitem]; try (now intros [= <-]).
  destruct (d !! k); [discriminate|now intros [= <-]].
Qed.

Lemma contains_raises s v e : contains s v = Raise e -> lookup_error e = true.
Proof. destruct v; cbn [contains]; try discriminate; now intros [= <-]. Qed.

Lemma iterate_raises v e : iterate v = Raise e -> lookup_error e = true.
Proof. destruct v; cbn [iterate]; try discriminate; now intros [= <-]. Qed.

Lemma add_str_raises s v e : add_str s v = Raise e -> lookup_error e = true.
Proof. destruct v; cbn [add_str]; try discriminate; now intros [= <-]. Qed.

Lemma and_then_Raise {A B} (o : outcome A) (k : A -> outcome B) e :
  and_then o k = Raise e -> o = Raise e \/ exists a, o = Return a /\ k a = Raise e.
Proof.
  destruct o as [e'|a]; intros H; [injection H as ->; now left|].
  right. now exists a.
Qed.

(** Close a goal [lookup_error e = true] from the primitive that raised. *)
Ltac raised :=
  match goal with
  | H : getitem _ _ = Raise _ |- _ => exact (getitem_raises _ _ _ H)
  | H : contains _ _ = Raise _ |- _ => exact (contains_raises _ _ _ H)
  | H : iterate _ = Raise _ |- _ => exact (iterate_raises _ _ H)
  | H : add_str _ _ = Raise _ |- _ => exact (add_str_raises _ _ _ H)
  end.

Lemma join_excerpts_raises acc excerpts e :
  Notion.join_excerpts acc excerpts = Raise e -> lookup_error e = true.
Proof.
  revert acc. induction excerpts as [|x rest IH]; intros acc; [discriminate|].
  cbn [Notion.join_excerpts].
  intros [H|([] & _ & H)]%and_then_Raise; try raised.
  apply and_then_Raise in H as [H|(text & _ & H)]; try raised.
  apply and_then_Raise in H as [H|(content & _ & H)]; try raised.
  apply and_then_Raise in H as [H|(acc' & _ & H)]; try raised.
  all: eauto.
Qed.

Lemma join_runs_raises acc runs e :
  Notion.join_runs acc runs = Raise e -> lookup_error e = true.
Proof.
  unfold Notion.join_runs.
  intros [H|(xs & _ & H)]%and_then_Raise; first [raised | eauto using join_excerpts_raises].
Qed.

Lemma toggle_step_raises st block e :
  Notion.toggle_step st block = Raise e -> lookup_error e = true.
Proof.
  unfold Notion.toggle_step.
  intros [H|(ty & _ & H)]%and_then_Raise; try raised.
  apply and_then_Raise in H as [H|(st1 & _ & H)].
  - repeat match type of H with
           | (if ?b then _ else _) = _ => destruct b
           end; try discriminate;
      apply and_then_Raise in H as [H|(data & _ & H)]; try raised;
      apply and_then_Raise in H as [H|(runs & _ & H)]; try raised;
      apply and_then_Raise in H as [H|(full & _ & H)];
      first [raised | discriminate | eauto using join_runs_raises].
  - apply and_then_Raise in H as [H|(ty' & _ & H)]; try raised.
    discriminate.
Qed.

Lemma toggle_loop_raises st blocks e :
  Notion.toggle_loop st blocks = Raise e -> lookup_error e = true.
Proof.
  revert st. induction blocks as [|b rest IH]; intros st; [discriminate|].
  cbn [Notion.toggle_loop].
  intros [H|(st' & _ & H)]%and_then_Raise; first [raised | eauto using toggle_step_raises].
Qed.

(** Once the children are fetched, get_toggle_answer raises nothing but
    KeyError, IndexError and TypeError. *)
Lemma toggle_answer_raises toggle_children e :
  Notion.toggle_answer toggle_children = Raise e -> lookup_error e = true.
Proof.
  unfold Notion.toggle_answer.
  intros [H|(content & _ & H)]%and_then_Raise; try raised.
  apply and_then_Raise in H as [H|(blocks & _ & H)]; try raised.
  apply and_then_Raise in H as [H|(st & _ & H)]; first [raised | eauto using toggle_loop_raises].
  discriminate.
Qed.

(** X9.  Once the children of a toggle are fetched, get_toggle_answer
    raises nothing but KeyError, IndexError and TypeError.  So a toggle with
    a question whose children cannot be read is passed over by
    analyze_blocks with one warning, its question is not stored, and the
    walk goes on with the blocks after it. *)
Theorem toggle_with_unreadable_children_is_skipped
    svc toggle q block_id toggle_children e rest st w :
  get toggle "type" (PStr (lit "")) = Return (PStr "toggle") ->
  first_run "toggle" toggle = Some q ->
  strip q <> [] ->
  getitem toggle "id" = Return block_id ->
  notion_children svc block_id = Return toggle_children ->
  Notion.toggle_answer toggle_children = Raise e ->
  lookup_error e = true
  /\ Notion.analyze_loop svc (toggle :: rest) st w =
     Notion.analyze_loop svc rest st (add_log [skip_warning svc toggle e] w).
Proof.
  intros Hty Hq Hqn Hid Hsvc Hraise.
  pose proof (toggle_answer_raises _ _ Hraise) as He. split; [exact He|].
  rewrite analyze_loop_cons, Hty, (contribution_toggle svc toggle q Hq).
  apply nonempty_true in Hqn as ->.
  rewrite Hid. cbn [and_then]. rewrite Hsvc. cbn [and_then].
  rewrite Hraise. cbn [and_then]. now rewrite He.
Qed.

Lemma toggle_with_unreadable_children_is_skipped_witness :
  (Notion.analyze_blocks
     (services_of (Raise (ServiceError 500))
        ["t1" ~> listing [topic1_answer; untyped_child]] no_anki)
     (PList [topic1_toggle; topic1_heading]) world0).2 =
  Return ({[lit "Topic1"]}, ∅).
Proof.
  rewrite analyze_blocks_list.
  destruct (toggle_with_unreadable_children_is_skipped
              (services_of (Raise (ServiceError 500))
                 ["t1" ~> listing [topic1_answer; untyped_child]] no_anki)
              topic1_toggle (lit "What is X?") (PStr "t1")
              (listing [topic1_answer; untyped_child]) KeyError
              [topic1_heading] (∅, ∅) world0) as [_ ->];
    try (vm_compute; reflexivity).
  vm_compute. discriminate.
Defined.

(** *** Where topics and answers come from *)

(** A first run that the walk reads as text [h] is a first run in the
    sense of [first_run]. *)
Lemma first_run_found ty block data rich_text h :
  get block ty (PDict ∅) = Return data ->
  get data "rich_text" (PList []) = Return rich_text ->
  Notion.first_text rich_text = Return true ->
  Notion.first_content rich_text = Return (PStr h) ->
  first_run ty block = Some h.
Proof.
  destruct block as [| | | | |d]; try discriminate. cbn [get first_run].
  intros [= <-].
  destruct (d !! ty) as [data|]; cbn [default from_option id].
  2:{ cbn [get]. rewrite lookup_empty. cbn [default from_option id].
      intros [= <-]. discriminate. }
  destruct data as [| | | | |dd]; try discriminate. cbn [get].
  intros [= <-].
  destruct (dd !! lit "rich_text") as [rich|]; cbn [default from_option id];
    [|discriminate].
  unfold Notion.first_text, Notion.first_content.
  destruct rich as [|b|z|s|[|run rest]|m]; cbn [truthy].
  - discriminate.
  - destruct b; discriminate.
  - destruct (negb (z =? 0)%Z); discriminate.
  - destruct (negb (bool_decide (s = []))); [|discriminate].
    cbn [getindex]. destruct (s !! 0); cbn [and_then get]; discriminate.
  - rewrite bool_decide_eq_true_2 by reflexivity. discriminate.
  - rewrite bool_decide_eq_false_2 by discriminate.
    cbn [negb getindex lookup list_lookup and_then].
    destruct run as [| | | | |r]; try discriminate. cbn [get getitem and_then].
    destruct (r !! lit "text") as [text|]; cbn [default from_option id and_then];
      [|discriminate].
    intros _. destruct text as [| | | | |t]; try discriminate. cbn [getitem].
    destruct (t !! lit "content") as [[]|]; try discriminate. now intros [= <-].
  - destruct (negb (bool_decide (size m = 0))); discriminate.
Qed.

Lemma contribution_topic_inv svc block block_type h :
  contribution_of svc block block_type = Return (Topic h) ->
  exists ty, block_type = PStr ty /\ substring_of "heading" ty = true /\
             first_run ty block = Some h /\ strip h <> [].
Proof.
  unfold contribution_of.
  intros (is_heading & Hhead & H)%and_then_Return.
  destruct is_heading.
  - apply and_then_Return in H as (data & Hdata & H).
    apply and_then_Return in H as (rich & Hrich & H).
    apply and_then_Return in H as (has_text & Htext & H).
    destruct has_text; [|discriminate].
    apply and_then_Return in H as (content & Hcontent & H).
    apply and_then_Return in H as (heading & Hheading & H).
    destruct (nonempty (strip heading)) eqn:Hne; [|discriminate].
    injection H as ->. destruct content; try discriminate.
    injection Hheading as ->.
    destruct block_type as [| | |ty| |];
      try (destruct block; discriminate).
    exists ty. injection Hhead as Hsub. rewrite get_key_str in Hdata.
    repeat split; [exact Hsub| |now apply nonempty_true].
    exact (first_run_found ty block data rich h Hdata Hrich Htext Hcontent).
  - destruct (eq_str block_type "toggle"); [|discriminate].
    repeat match type of H with
           | and_then ?o _ = _ =>
               let H' := fresh in
               apply and_then_Return in H as (? & H' & H)
           | (if ?b then _ else _) = _ => destruct b
           end; discriminate.
Qed.

Lemma contribution_answer_inv svc block block_type q a :
  contribution_of svc block block_type = Return (Answer q a) ->
  block_type = PStr "toggle" /\ first_run "toggle" block = Some q /\
  strip q <> [] /\
  exists block_id toggle_children,
    getitem block "id" = Return block_id /\
    notion_children svc block_id = Return toggle_children /\
    Notion.toggle_answer toggle_children = Return a /\ strip a <> [].
Proof.
  unfold contribution_of.
  intros (is_heading & Hhead & H)%and_then_Return.
  destruct is_heading.
  - repeat match type of H with
           | and_then ?o _ = _ =>
               let H' := fresh in
               apply and_then_Return in H as (? & H' & H)
           | (if ?b then _ else _) = _ => destruct b
           end; discriminate.
  - destruct (eq_str block_type "toggle") eqn:Hty; [|discriminate].
    apply eq_str_true in Hty as ->.
    apply and_then_Return in H as (data & Hdata & H).
    apply and_then_Return in H as (rich & Hrich & H).
    apply and_then_Return in H as (has_text & Htext & H).
    destruct has_text; [|discriminate].
    apply and_then_Return in H as (content & Hcontent & H).
    apply and_then_Return in H as (question & Hquestion & H).
    destruct (nonempty (strip question)) eqn:Hqn; [|discriminate].
    apply and_then_Return in H as (block_id & Hid & H).
    apply and_then_Return in H as (children & Hchildren & H).
    apply and_then_Return in H as (answer & Hanswer & H).
    destruct (nonempty (strip answer)) eqn:Han; [|discriminate].
    injection H as -> ->. destruct content; try discriminate.
    injection Hquestion as ->.
    split; [reflexivity|]. split.
    { exact (first_run_found (lit "toggle") block data rich q Hdata Hrich Htext Hcontent). }
    split; [now apply nonempty_true|].
    exists block_id, children. repeat split; try assumption.
    now apply nonempty_true.
Qed.

(** *** The walk in closed form *)

Lemma heading_text_contribution svc block ty t :
  get block "type" (PStr (lit "")) = Return (PStr ty) ->
  heading_text block = Some t ->
  exists h, contribution_of svc block (PStr ty) = Return (Topic h) /\ t = strip h.
Proof.
  intros Hty. unfold heading_text. rewrite Hty.
  destruct (substring_of "heading" ty) eqn:Hsub; [|discriminate].
  destruct (first_run ty block) as [h|] eqn:Hrun; [|discriminate].
  destruct (nonempty (strip h)) eqn:Hne; [|discriminate].
  intros [= <-]. exists h. split; [|reflexivity].
  now rewrite (contribution_heading svc block ty h Hsub Hrun), Hne.
Qed.

Lemma toggle_pair_contribution svc block ty p :
  get block "type" (PStr (lit "")) = Return (PStr ty) ->
  toggle_pair svc block = Some p ->
  exists q a, contribution_of svc block (PStr ty) = Return (Answer q a) /\
              p = (strip q, strip a).
Proof.
  intros Hty. unfold toggle_pair. rewrite Hty.
  case_bool_decide as Heq; [subst ty|discriminate].
  destruct (first_run "toggle" block) as [q|] eqn:Hrun; [|discriminate].
  destruct (nonempty (strip q)) eqn:Hne; [|discriminate].
  rewrite (contribution_toggle svc block q Hrun), Hne.
  destruct (getitem block "id") as [e|block_id]; [discriminate|].
  cbn [and_then].
  destruct (notion_children svc block_id) as [e|children]; [discriminate|].
  cbn [and_then].
  destruct (Notion.toggle_answer children) as [e|a]; [discriminate|].
  cbn [and_then].
  destruct (nonempty (strip a)); [|discriminate].
  intros [= <-]. now exists q, a.
Qed.

(** What the closed form says of a block agrees with what the walk makes
    of it. *)
Lemma contribution_closed svc block block_type :
  get block "type" (PStr (lit "")) = Return block_type ->
  heading_text block =
    match contribution_of svc block block_type with
    | Return (Topic h) => Some (strip h)
    | _ => None
    end
  /\ toggle_pair svc block =
    match contribution_of svc block block_type with
    | Return (Answer q a) => Some (strip q, strip a)
    | _ => None
    end.
Proof.
  intros Hty. split.
  - destruct (heading_text block) as [t|] eqn:Hh.
    + assert (exists ty, block_type = PStr ty) as [ty ->].
      { unfold heading_text in Hh. rewrite Hty in Hh.
        destruct block_type; try discriminate. eauto. }
      destruct (heading_text_contribution svc block ty t Hty Hh) as (h & -> & ->).
      reflexivity.
    + destruct (contribution_of svc block block_type) as [e|[|h|q a]] eqn:Hc;
        try reflexivity.
      apply contribution_topic_inv in Hc as (ty & -> & Hsub & Hrun & Hne).
      unfold heading_text in Hh. rewrite Hty, Hsub, Hrun in Hh.
      apply nonempty_true in Hne. now rewrite Hne in Hh.
  - destruct (toggle_pair svc block) as [p|] eqn:Hp.
    + assert (exists ty, block_type = PStr ty) as [ty ->].
      { unfold toggle_pair in Hp. rewrite Hty in Hp.
        destruct block_type; try discriminate. eauto. }
      destruct (toggle_pair_contribution svc block ty p Hty Hp) as (q & a & -> & ->).
      reflexivity.
    + destruct (contribution_of svc block block_type) as [e|[|h|q a]] eqn:Hc;
        try reflexivity.
      apply contribution_answer_inv in Hc
        as (-> & Hrun & Hqn & id & r & Hid & Hr & Ha & Han).
      unfold toggle_pair in Hp. rewrite Hty, Hrun in Hp.
      rewrite bool_decide_eq_true_2 in Hp by reflexivity.
      apply nonempty_true in Hqn, Han. rewrite Hqn, Hid in Hp.
      cbn [and_then] in Hp. rewrite Hr in Hp. cbn [and_then] in Hp.
      rewrite Ha, Han in Hp. discriminate.
Qed.

Lemma analyze_loop_closed svc blocks st w :
  (Notion.analyze_loop svc blocks st w).2 =
  match head (omap (fatal svc) blocks) with
  | Some e => Raise e
  | None =>
      Return (st.1 ∪ list_to_set (omap heading_text blocks),
              store_pairs st.2 (omap (toggle_pair svc) blocks))
  end.
Proof.
  revert st w. induction blocks as [|block rest IH]; intros st w.
  - cbn. unfold ret. cbn [snd]. destruct st as [t c]. cbn [fst snd].
    now rewrite (right_id_L ∅ (∪)).
  - rewrite analyze_loop_cons. cbn [omap list_omap]. unfold fatal at 1.
    destruct (get block "type" (PStr (lit ""))) as [e|bt] eqn:Hty; [reflexivity|].
    destruct (contribution_closed svc block bt Hty) as [Hh Hp].
    rewrite Hh, Hp.
    destruct (contribution_of svc block bt) as [e|c].
    + destruct (lookup_error e); [apply IH|reflexivity].
    + rewrite IH. cbn [absorb contribution_log].
      destruct (head (omap (fatal svc) rest)); [reflexivity|].
      destruct c as [|h|q a]; cbn [absorb fst snd]; try reflexivity.
      cbn [list_to_set foldr].
      now rewrite (assoc_L (∪)), (comm_L (∪) st.1).
Qed.

(** X10.  analyze_blocks in closed form.  The walk raises the exception of
    the first block that raises outside the [try] or raises one the
    [except] clause does not name; when there is no such block it returns
    the set of the trimmed heading texts and the mapping obtained by
    storing the trimmed question and answer of each toggle in page order.
    Blocks passed over with a warning leave no trace in the result. *)
Theorem analyze_blocks_closed_form svc blocks w :
  (Notion.analyze_blocks svc (PList blocks) w).2 =
  match head (omap (fatal svc) blocks) with
  | Some e => Raise e
  | None =>
      Return (list_to_set (omap heading_text blocks),
              store_pairs ∅ (omap (toggle_pair svc) blocks))
  end.
Proof.
  rewrite analyze_blocks_list, analyze_loop_closed. cbn [fst snd].
  destruct (head _); [reflexivity|]. now rewrite (left_id_L ∅ (∪)).
Qed.

Lemma store_pairs_app content l1 l2 :
  store_pairs content (l1 ++ l2) = store_pairs (store_pairs content l1) l2.
Proof. apply foldl_app. Qed.

Lemma store_pairs_other content pairs q :
  (forall a, (q, a) ∉ pairs) ->
  store_pairs content pairs !! q = content !! q.
Proof.
  revert content. induction pairs as [|[q' a'] rest IH]; intros content Hq.
  - reflexivity.
  - cbn [store_pairs foldl fst snd]. fold (store_pairs (<[q' := a']> content) rest).
    rewrite IH.
    + apply lookup_insert_ne. intros ->. apply (Hq a'). now left.
    + intros a Ha. apply (Hq a). now right.
Qed.

(** X11.  Of several toggles with the same trimmed question the last one
    gives the answer: when the walk returns, the question of a toggle that
    no later toggle repeats is bound to the trimmed answer of that
    toggle, whatever earlier toggles stored under it. *)
Theorem last_toggle_with_a_question_wins svc pre toggle post q a w topics content :
  (Notion.analyze_blocks svc (PList (pre ++ toggle :: post)) w).2
    = Return (topics, content) ->
  toggle_pair svc toggle = Some (q, a) ->
  (forall block a', block ∈ post -> toggle_pair svc block <> Some (q, a')) ->
  content !! q = Some a.
Proof.
  intros Hwalk Htoggle Hpost.
  rewrite analyze_blocks_list, analyze_loop_closed in Hwalk. cbn [fst snd] in Hwalk.
  destruct (head _); [discriminate|]. injection Hwalk as _ <-.
  rewrite omap_app. cbn [omap list_omap]. rewrite Htoggle.
  rewrite store_pairs_app. cbn [store_pairs foldl fst snd].
  fold (store_pairs (<[q := a]> (store_pairs ∅ (omap (toggle_pair svc) pre)))
          (omap (toggle_pair svc) post)).
  rewrite store_pairs_other.
  - apply lookup_insert_eq.
  - intros a' Hin. apply list_elem_of_omap in Hin as (block & Hin & Hp).
    exact (Hpost block a' Hin Hp).
Qed.

Lemma last_toggle_with_a_question_wins_witness :
  (Notion.analyze_blocks asked_twice_services (PList asked_twice) world0).2
    = Return (∅, {[lit "What is X?" := lit "X is Z."]})
  /\ ({[lit "What is X?" := lit "X is Z."]} : gmap pstr pstr) !! lit "What is X?"
     = Some (lit "X is Z.").
Proof.
  split; [vm_compute; reflexivity|].
  apply (last_toggle_with_a_question_wins asked_twice_services
           [block_of "t1" "toggle" (lit "What is X?")]
           (block_of "t2" "toggle" (lit " What is X? ")) []
           (lit "What is X?") (lit "X is Z.") world0 ∅).
  - vm_compute. reflexivity.
  - vm_compute. reflexivity.
  - intros block a' Hin. inversion Hin.
Defined.

(** *** Page and database search *)












(** X15.  search_notion_database raises nothing in silence: whenever it
    raises, the last record it logged is the error naming the database and
    that same exception. *)
Theorem search_notion_database_logs_what_it_raises svc database_name w e :
  (Notion.search_notion_database svc database_name w).2 = Raise e ->
  last (w_log (Notion.search_notion_database svc database_name w).1)
  = Some (ERROR, lit "Error searching for database " ++ database_name
                 ++ lit ": " ++ str_exn svc e).
Proof.
  unfold Notion.search_notion_database, try_except.
  match goal with |- context [bind ?m ?k w] => destruct (bind m k w) as [w' [e'|v]] end.
  - unfold bind, log, raise. cbn [fst snd]. intros [= ->].
    unfold add_log. cbn [w_log]. apply last_snoc.
  - discriminate.
Qed.

Lemma search_notion_database_logs_what_it_raises_witness :
  (Notion.search_notion_database search_down (lit "Topic1") world0).2
    = Raise (ServiceError 503)
  /\ last (w_log (Notion.search_notion_database search_down (lit "Topic1") world0).1)
     = Some (ERROR, lit "Error searching for database " ++ lit "Topic1"
                    ++ lit ": " ++ str_exn search_down (ServiceError 503)).
Proof.
  split; [vm_compute; reflexivity|].
  apply (search_notion_database_logs_what_it_raises search_down (lit "Topic1")
           world0 (ServiceError 503)).
  vm_compute. reflexivity.
Defined.

(** *** The tools over the search and the walk *)







(** X18.  generate_flashcards asks for nothing without content.  Given a
    name that is None or a string and an empty mapping, it returns a
    "failed" envelope with no cards and sends one message to the client;
    nothing is logged and nothing is posted to AnkiConnect, whatever the
    services are. *)
Theorem generate_flashcards_without_content_asks_nothing
    svc page_name topics w b :
  blank page_name = Return b ->
  exists lv data message,
    Server.generate_flashcards svc page_name topics ∅ w
    = (World (w_log w) (w_sent w ++ [(lv, data)]) (w_calls w),
       Return (Server.generation_failed [] message)).
Proof.
  intros Hblank. unfold Server.generate_flashcards, bind, lift.
  rewrite Hblank. destruct b.
  - unfold send_log_message, ret. eauto.
  - rewrite (bool_decide_eq_true_2 (∅ = ∅)) by reflexivity.
    destruct (bool_decide (length topics = 0)); cbn [andb];
      unfold send_log_message, ret; eauto.
Qed.

Lemma generate_flashcards_without_content_asks_nothing_witness :
  exists lv data message,
    Server.generate_flashcards publish_services (PStr (lit "Topic1"))
      [lit "Topic1"] ∅ world0
    = (World (w_log world0) (w_sent world0 ++ [(lv, data)]) (w_calls world0),
       Return (Server.generation_failed [] message)).
Proof.
  apply (generate_flashcards_without_content_asks_nothing publish_services
           (PStr (lit "Topic1")) [lit "Topic1"] world0 false).
  vm_compute. reflexivity.
Defined.
